(** * The atomic universe: lazily computed tables over a mutable container

    A shallow embedding of [exatomic/universe.py].  The [Universe] object is
    modelled by its attribute dictionary together with the store of table
    objects its attributes refer to; methods are computations in a
    state-and-exception monad, so that what a method leaves behind when it
    raises is part of its meaning, as in Python. *)

From Stdlib Require Import Ascii.
From stdpp Require Import gmap strings list fin_maps.

Local Open Scope Z_scope.

(** ** Tables

    A pandas table is a sequence of labelled rows, the label being the value
    of the table's index.  A row maps column names to cells; a column a row
    has no entry for reads as the missing value.  Cells hold what the methods
    of the universe inspect: integers (identifiers, counts), the missing value
    and other objects, which are carried around but never computed on
    (coordinates, symbols). *)

Inductive cell :=
  | NaN
  | Int (n : Z)
  | Bool (b : bool)
  | Obj (s : string).

#[global] Instance cell_eq_dec : EqDecision cell.
Proof. solve_decision. Defined.

Abbreviation row := (gmap string cell).
Abbreviation DataFrame := (list (Z * row)).
Abbreviation Series := (list (Z * cell)).

Definition cell_of (r : row) (c : string) : cell := default NaN (r !! c).

Definition isna (v : cell) : bool :=
  match v with NaN => true | _ => false end.

(** [df.index] *)
Definition index (df : DataFrame) : list Z := df.*1.

(** [df[c]] *)
Definition column (c : string) (df : DataFrame) : Series :=
  (λ ir, (ir.1, cell_of ir.2 c)) <$> df.

(** [v] as an integer, where [astype(np.int64)] can convert it *)
Definition as_int (v : cell) : option Z :=
  match v with Int n => Some n | _ => None end.

(** [series.astype(np.int64)], the values only *)
Definition astype_int64 (s : Series) : option (list Z) :=
  mapM (λ ic, as_int ic.2) s.

(** [df[df.index.isin(pa)]] *)
Definition select_isin (pa : list Z) (df : DataFrame) : DataFrame :=
  filter (λ ir, ir.1 ∈ pa) df.

(** [df[c] = v] for a scalar [v] *)
Definition setitem_scalar (c : string) (v : cell) (df : DataFrame) : DataFrame :=
  (λ ir, (ir.1, <[c := v]> ir.2)) <$> df.

(** [df[c] = s] for a series [s] keyed by distinct labels: the values are
    aligned on the index of [df], rows without an entry get the missing
    value. *)
Definition setitem_aligned (c : string) (s : gmap Z Z) (df : DataFrame) : DataFrame :=
  (λ ir, (ir.1, <[c := from_option Int NaN (s !! ir.1)]> ir.2)) <$> df.

(** [series.fillna(d)] on one cell *)
Definition fillna (d : Z) (v : cell) : cell :=
  if isna v then Int d else v.

(** [df[c].fillna(d).astype(np.int64)], the values only; the later
    [astype('category')] changes the encoding of the column, not its
    values. *)
Definition fill_int_values (c : string) (d : Z) (df : DataFrame) : option (list Z) :=
  mapM (λ ir, as_int (fillna d (cell_of ir.2 c))) df.

(** [df[c] = s] for a series [s] that has the index of [df]: the values go
    to the rows in order. *)
Definition setitem_values (c : string) (vs : list Z) (df : DataFrame) : DataFrame :=
  zip_with (λ ir n, (ir.1, <[c := Int n]> ir.2)) df vs.

(** The first row labelled [i] *)
Definition row_at (i : Z) (df : DataFrame) : option row :=
  snd <$> head (filter (λ ir, ir.1 = i) df).

(** One row of [DataFrame.update]: the columns of the row take the values of
    the other row that are not missing. *)
Definition update_row (r o : row) : row :=
  map_imap (λ c v, Some (match o !! c with
                         | Some w => if isna w then v else w
                         | None => v
                         end)) r.

(** [df.update(other)]: rows are matched by label, rows of [other] with no
    partner are ignored. *)
Definition update_table (df other : DataFrame) : DataFrame :=
  (λ ir, (ir.1, from_option (update_row ir.2) ir.2 (row_at ir.1 other))) <$> df.

(** [pd.concat((a, b), ignore_index=True)] followed by
    [reset_index(drop=True)]: the rows of [a], then the rows of [b],
    labelled by their position. *)
Definition concat_ignore_index (a b : DataFrame) : DataFrame :=
  imap (λ i ir, (Z.of_nat i, ir.2)) (a ++ b).

(** ** Objects, references and the universe

    Tables are Python objects: an attribute of the universe holds a reference
    to one, two names may refer to the same table, and a method that writes a
    column changes the table for every holder of a reference.  The store is
    the sequence of the objects created so far and a reference is a position
    in it; objects are never freed.  A field table carries, beside its
    dimension rows, the sequence of its value arrays ([field_values]). *)

Inductive object :=
  | Table (df : DataFrame)
  | FieldTable (field_values : list (list cell)) (df : DataFrame).

Definition frame_of (o : object) : DataFrame :=
  match o with Table df | FieldTable _ df => df end.

Definition with_frame (f : DataFrame → DataFrame) (o : object) : object :=
  match o with
  | Table df => Table (f df)
  | FieldTable vs df => FieldTable vs (f df)
  end.

(** What an attribute of the universe or an argument of a method can be. *)
Inductive value :=
  | VNone
  | VBool (b : bool)
  | VRef (l : nat).

#[global] Instance value_eq_dec : EqDecision value.
Proof. solve_decision. Defined.

Inductive exn :=
  | AttributeError
  | IndexError
  | NotImplementedError
  | TypeError
  | ValueError
  | Failure (what : string).

Inductive outcome (A : Type) :=
  | Ret (a : A)
  | Raise (e : exn).
Arguments Ret {A} a.
Arguments Raise {A} e.

(** The state a method runs in: the object store, the attribute dictionary
    of the universe ([self.__dict__]; [hasattr] is membership in it), and the
    names of the [compute_*] and [truncate_*] methods entered so far, oldest
    first.  The last component is an observer: no method reads it. *)
Record state := State {
  heap : list object;
  self : gmap string value;
  calls : list string
}.

(** A method maps the state to an outcome and the state it leaves.  An
    exception does not undo what was written before it was raised. *)
Definition M (A : Type) : Type := state → outcome A * state.

#[global] Instance M_ret : MRet M := λ A a s, (Ret a, s).
#[global] Instance M_bind : MBind M := λ A B k m s,
  match m s with
  | (Ret a, s') => k a s'
  | (Raise e, s') => (Raise e, s')
  end.

Definition raise {A} (e : exn) : M A := λ s, (Raise e, s).

(** A collaborator that is handed the universe: it reads the attributes and
    the tables they refer to, and returns or raises. *)
Definition reader (A : Type) : Type :=
  list object → gmap string value → outcome A.

Definition call {A} (f : reader A) : M A := λ s, (f (heap s) (self s), s).

Definition lift {A} (o : outcome A) : M A := λ s, (o, s).

Definition lift_option {A} (e : exn) (o : option A) : M A :=
  match o with Some a => mret a | None => raise e end.

(** Entering a method *)
Definition enter (name : string) : M unit :=
  λ s, (Ret tt, State (heap s) (self s) (calls s ++ [name])).

(** [hasattr(self, x)] *)
Definition hasattr (x : string) : M bool :=
  λ s, (Ret (bool_decide (is_Some (self s !! x))), s).

(** [self.x] for a plain attribute *)
Definition getattr (x : string) : M value :=
  λ s, match self s !! x with
       | Some v => (Ret v, s)
       | None => (Raise AttributeError, s)
       end.

(** [self.x = v] for a plain attribute *)
Definition setattr (x : string) (v : value) : M unit :=
  λ s, (Ret tt, State (heap s) (<[x := v]> (self s)) (calls s)).

(** A new object *)
Definition alloc (o : object) : M nat :=
  λ s, (Ret (length (heap s)), State (heap s ++ [o]) (self s) (calls s)).

(** The object a reference refers to.  A reference of a running program
    always refers to one; the other case is there for totality. *)
Definition deref (l : nat) : M object :=
  λ s, match heap s !! l with
       | Some o => (Ret o, s)
       | None => (Raise (Failure "no such object"), s)
       end.

(** The rows of the table [v] refers to; [None[...]] is a [TypeError]. *)
Definition table_of (v : value) : M DataFrame :=
  match v with
  | VRef l => o ← deref l; mret (frame_of o)
  | _ => raise TypeError
  end.

(** A write into the table at [l], in place *)
Definition put (l : nat) (o : object) : M unit :=
  λ s, (Ret tt, State (<[l := o]> (heap s)) (self s) (calls s)).

Definition modify (l : nat) (f : DataFrame → DataFrame) : M unit :=
  o ← deref l; put l (with_frame f o).

(** [v[c] = ...] on whatever [v] is; [None] supports no item assignment. *)
Definition setitem (v : value) (f : DataFrame → DataFrame) : M unit :=
  match v with
  | VRef l => modify l f
  | _ => raise TypeError
  end.

(** [df.copy()] *)
Definition copy (l : nat) : M nat :=
  o ← deref l; alloc o.

(** [Atom(df)]: a new table object over the rows of [df] *)
Definition retype (l : nat) : M nat :=
  o ← deref l; alloc o.

(** The typed attributes [frame], [atom], [two_free] and [two_periodic] are
    declared through the metaclass of the container base class, which keeps
    the table of the attribute [name] under [_name] (the source itself tests
    [_is('_frame')] next to [self.frame]).  Reading a typed attribute whose
    slot holds a table gives that table, and is taken to raise
    [AttributeError] where the slot holds none; assigning to it makes a
    table of the declared class from the value and fills the slot with
    it. *)
Definition slot (name : string) : string := String "_"%char name.

Definition get_typed (name : string) : M nat :=
  λ s, match self s !! slot name with
       | Some (VRef l) => (Ret l, s)
       | _ => (Raise AttributeError, s)
       end.

Definition set_typed (name : string) (df : DataFrame) : M unit :=
  l ← alloc (Table df); setattr (slot name) (VRef l).

(** ** The universe *)

(** The [frame] argument of [append_field]: absent, an integer ([int],
    [np.int64] or [np.int32]), or anything else. *)
Inductive frame_arg :=
  | NoFrame
  | IntFrame (z : Z)
  | OtherFrame.

(** A classifier of [classify_molecules]: identifier, classification, exact *)
Abbreviation classifier := (string * string * bool)%type.

Section Universe.

(** The functions the universe delegates to live in other modules
    ([exatomic.atom], [exatomic.two], [exatomic.molecule],
    [exatomic.frame]) and in the container base class.  They are taken as
    they are called here: each receives the universe (or a table), reads
    it, and returns a new table or raises. *)
Variable Args : Type.
Variables _cua _cpa _cva _cm _cmcom : reader DataFrame.
Variable _ctb : Args → reader DataFrame.
Variables _cbc _cpbc : reader (gmap Z Z).
Variable minimal_frame : DataFrame → outcome DataFrame.
Variable frame_is_periodic : DataFrame → bool.
Variable concat_columns : DataFrame → DataFrame → DataFrame.
Variable _reconstruct_field :
  object → option (list (list cell)) → outcome object.
Variable classify : list classifier → DataFrame → outcome DataFrame.

Definition _is (x : string) : M bool := hasattr x.

Definition is_periodic : M bool :=
  f ← get_typed "frame";
  df ← table_of (VRef f);
  mret (frame_is_periodic df).

Definition two : M nat :=
  p ← is_periodic;
  if (p : bool) then get_typed "two_periodic" else get_typed "two_free".

(** *** Compute methods *)

Definition compute_frame : M unit :=
  enter "compute_frame";;
  a ← get_typed "atom";
  df ← table_of (VRef a);
  f ← lift (minimal_frame df);
  set_typed "frame" f.

Definition compute_unit_atom : M unit :=
  enter "compute_unit_atom";;
  r ← call _cua;
  l ← alloc (Table r);
  setattr "_unit_atom" (VRef l).

Definition compute_projected_atom : M unit :=
  enter "compute_projected_atom";;
  r ← call _cpa;
  l ← alloc (Table r);
  setattr "_projected_atom" (VRef l).

Definition compute_visual_atom : M unit :=
  enter "compute_visual_atom";;
  r ← call _cva;
  l ← alloc (Table r);
  setattr "_visual_atom" (VRef l).

Definition compute_molecule (com : bool) : M unit :=
  enter "compute_molecule";;
  if com then
    m ← call _cm;
    l ← alloc (Table m);
    setattr "_molecule" (VRef l);;
    compute_visual_atom;;
    cur ← getattr "_molecule";
    mdf ← table_of cur;
    c ← call _cmcom;
    l' ← alloc (Table (concat_columns mdf c));
    setattr "_molecule" (VRef l')
  else
    m ← call _cm;
    l ← alloc (Table m);
    setattr "_molecule" (VRef l).

(** *** Accessor properties *)

(** [DataFrame.update] builds a table from an argument that is not one;
    from [None] that table is empty and nothing is updated. *)
Definition update (l : nat) (other : value) : M unit :=
  match other with
  | VRef o => odf ← table_of (VRef o); modify l (λ df, update_table df odf)
  | VNone => mret tt
  | VBool _ => raise ValueError
  end.

Definition unit_atom : M nat :=
  b ← _is "_unit_atom";
  (if negb (b : bool) then compute_unit_atom else mret tt);;
  a ← get_typed "atom";
  atom ← copy a;
  ua ← getattr "_unit_atom";
  update atom ua;;
  retype atom.

Definition visual_atom : M nat :=
  p ← is_periodic;
  if (p : bool) then
    v ← getattr "_visual_atom";
    (if decide (v = VNone) then compute_visual_atom else mret tt);;
    a ← get_typed "atom";
    atom ← copy a;
    va ← getattr "_visual_atom";
    update atom va;;
    mret atom
  else
    get_typed "atom".

Definition projected_atom : M value :=
  v ← getattr "_projected_atom";
  (if decide (v = VNone) then compute_projected_atom else mret tt);;
  getattr "_projected_atom".

Definition molecule : M value :=
  b ← _is "_molecule";
  (if negb (b : bool) then compute_molecule false else mret tt);;
  getattr "_molecule".

Definition field : M value := getattr "_field".

(** *** Two-body properties *)

Definition truncate_projected_atom : M unit :=
  enter "truncate_projected_atom";;
  pt ← getattr "periodic_two";
  ptdf ← table_of pt;
  pa0 ← lift_option ValueError (astype_int64 (column "prjd_atom0" ptdf));
  pt' ← getattr "periodic_two";
  ptdf' ← table_of pt';
  pa1 ← lift_option ValueError (astype_int64 (column "prjd_atom1" ptdf'));
  cur ← getattr "_projected_atom";
  df ← table_of cur;
  l ← alloc (Table (select_isin (pa0 ++ pa1) df));
  setattr "_projected_atom" (VRef l).

Definition compute_two_body (args : Args) (truncate_projected : bool) : M unit :=
  enter "compute_two_body";;
  p ← is_periodic;
  if (p : bool) then
    r ← call (_ctb args);
    set_typed "two_periodic" r;;
    if truncate_projected then truncate_projected_atom else mret tt
  else
    r ← call (_ctb args);
    set_typed "two_free" r.

Definition compute_two_free (args : Args) (truncate_projected : bool) : M unit :=
  enter "compute_two_free";;
  compute_two_body args truncate_projected.

Definition compute_two_periodic (args : Args) (truncate_projected : bool) : M unit :=
  enter "compute_two_periodic";;
  compute_two_body args truncate_projected.

(** *** Bond counts

    In [target[k] = e] the expression [e] is evaluated before the target:
    the collaborator runs before the atom tables are looked up. *)

Definition compute_bond_count : M unit :=
  enter "compute_bond_count";;
  bc ← call _cbc;
  a ← get_typed "atom";
  modify a (setitem_aligned "bond_count" bc);;
  a ← get_typed "atom";
  df ← table_of (VRef a);
  vs ← lift_option ValueError (fill_int_values "bond_count" 0 df);
  a' ← get_typed "atom";
  modify a' (setitem_values "bond_count" vs).

Definition compute_projected_bond_count : M unit :=
  enter "compute_projected_bond_count";;
  pbc ← call _cpbc;
  pa ← projected_atom;
  setitem pa (setitem_aligned "bond_count" pbc);;
  pa ← projected_atom;
  df ← table_of pa;
  vs ← lift_option ValueError (fill_int_values "bond_count" (-1) df);
  pa' ← projected_atom;
  setitem pa' (setitem_values "bond_count" vs).

(** *** Fields, molecules and the operations left out *)

Definition append_dataframe (df : value) : M unit :=
  raise NotImplementedError.

Definition slice_by_molecules (identifier : value) : M unit :=
  raise NotImplementedError.

Definition _slice_by_mids (molecule_indices : value) : M unit :=
  raise NotImplementedError.

(** [o.field_values] *)
Definition field_values_of (o : object) : M (list (list cell)) :=
  match o with
  | FieldTable vs _ => mret vs
  | Table _ => raise AttributeError
  end.

Definition append_field (field : nat) (frame : frame_arg)
    (field_values : option (list (list cell))) : M unit :=
  match frame with
  | IntFrame z =>
      f ← get_typed "frame";
      fdf ← table_of (VRef f);
      if decide (z ∈ index fdf)
      then modify field (setitem_scalar "frame" (Int z))
      else raise IndexError
  | _ => mret tt
  end;;
  fo ← deref field;
  r ← lift (_reconstruct_field fo field_values);
  df ← alloc r;
  cur ← getattr "_field";
  match (cur : value) with
  | VNone => setattr "_field" (VRef df)
  | VRef old =>
      oo ← deref old;
      ov ← field_values_of oo;
      no ← deref df;
      nv ← field_values_of no;
      l ← alloc (FieldTable (ov ++ nv)
                   (concat_ignore_index (frame_of oo) (frame_of no)));
      setattr "_field" (VRef l)
  | VBool _ => raise AttributeError
  end;;
  setattr "_traits_need_update" (VBool true).

Definition classify_molecules (classifiers : list classifier) : M unit :=
  m ← molecule;
  match (m : value) with
  | VRef l =>
      df ← table_of (VRef l);
      r ← lift (classify classifiers df);
      modify l (λ _, r)
  | _ => raise AttributeError
  end.

End Universe.

(** ** Bond counts, from the design

    The table an attribute refers to, if it refers to one *)
Definition table_at (h : list object) (d : gmap string value) (x : string)
    : option DataFrame :=
  match d !! x with
  | Some (VRef l) => frame_of <$> h !! l
  | _ => None
  end.

(** The rows of a pair table that are bonds *)
Definition bonded (pairs : DataFrame) : DataFrame :=
  filter (λ ir, cell_of ir.2 "bond" = Bool true) pairs.

(** The identifiers a column holds *)
Definition ids_of (c : string) (df : DataFrame) : list Z :=
  omap (λ ir, as_int (cell_of ir.2 c)) df.


(** [value_counts]: the identifiers that occur, each with the number of its
    occurrences *)
Definition count_ids (ids : list Z) : gmap Z Z :=
  foldr (λ i m, <[i := 1 + default 0 (m !! i)]> m) ∅ ids.

(** Modelled from the spec: [exatomic.two.compute_bond_count] is not among
    the sources.  "Per-atom bond count = number of bonds in Two/PeriodicTwo
    referencing that atom (or its projected images, summed back to source
    atom)"; the pair table has the columns [atom0_id], [atom1_id] (periodic:
    [prjd_atom0], [prjd_atom1]) and [bond], a projected atom refers back to
    its atom through [source_atom_id], and a compute step whose upstream
    table is missing fails with [MissingDataError].  [bond_ends] lists the
    atom at either end of every bond. *)
Definition bond_ends (frame_is_periodic : DataFrame → bool)
    : reader (list Z) := λ h d,
  match table_at h d "_frame" with
  | None => Raise (Failure "MissingDataError")
  | Some f =>
      if frame_is_periodic f then
        match table_at h d "_two_periodic", table_at h d "_projected_atom" with
        | Some pairs, Some pa =>
            let images := ids_of "prjd_atom0" (bonded pairs)
                          ++ ids_of "prjd_atom1" (bonded pairs) in
            Ret (omap (λ i, r ← row_at i pa;
                            as_int (cell_of r "source_atom_id")) images)
        | _, _ => Raise (Failure "MissingDataError")
        end
      else
        match table_at h d "_two_free" with
        | Some pairs =>
            Ret (ids_of "atom0_id" (bonded pairs)
                 ++ ids_of "atom1_id" (bonded pairs))
        | None => Raise (Failure "MissingDataError")
        end
  end.

(** Modelled from the spec: the series [exatomic.two.compute_bond_count]
    returns, the number of bond ends per atom that has any. *)
Definition spec_bond_count (frame_is_periodic : DataFrame → bool)
    : reader (gmap Z Z) := λ h d,
  match bond_ends frame_is_periodic h d with
  | Ret ids => Ret (count_ids ids)
  | Raise e => Raise e
  end.

(** Modelled from the spec: [exatomic.two.compute_projected_bond_count] is
    not among the sources.  "Same but per projected-atom row":
    [image_bond_ends] lists the projected atom at either end of every
    bond. *)
Definition image_bond_ends : reader (list Z) := λ h d,
  match table_at h d "_two_periodic" with
  | Some pairs =>
      Ret (ids_of "prjd_atom0" (bonded pairs)
           ++ ids_of "prjd_atom1" (bonded pairs))
  | None => Raise (Failure "MissingDataError")
  end.

(** Modelled from the spec: the series
    [exatomic.two.compute_projected_bond_count] returns, the number of bond
    ends per projected atom that has any. *)
Definition spec_projected_bond_count : reader (gmap Z Z) := λ h d,
  match image_bond_ends h d with
  | Ret ids => Ret (count_ids ids)
  | Raise e => Raise e
  end.

(** ** Notions the statements below use *)



(** The table with the counts [bc] written into column [c], [d] where
    there is no count *)
Definition counted (c : string) (d : Z) (bc : gmap Z Z) (df : DataFrame)
    : DataFrame :=
  (λ ir, (ir.1, <[c := Int (default d (bc !! ir.1))]> ir.2)) <$> df.

(** The field as [append_field] hands it on: with the frame written into
    its dimension rows when an integer frame was given. *)
Definition framed (frame : frame_arg) (fo : object) : object :=
  match frame with
  | IntFrame z => with_frame (setitem_scalar "frame" (Int z)) fo
  | _ => fo
  end.


(** A computation leaves the attribute [x] as it is, however it ends. *)
Definition keeps {A} (x : string) (m : M A) : Prop :=
  ∀ s, self (m s).2 !! x = self s !! x.


(** An accessor hands out what the attribute [x] caches: it returns, and the
    table it returns has the contents of the cached one. *)
Definition returns_cached (acc : M nat) (x : string) (s : state) : Prop :=
  ∃ l s' u, acc s = (Ret l, s') ∧ self s' !! x = Some (VRef u)
            ∧ heap s' !! l = heap s' !! u.


(** Both identifier columns of a periodic pair table hold integers. *)
Definition integer_ids (pairs : DataFrame) : Prop :=
  Forall (λ ir, is_Some (as_int (cell_of ir.2 "prjd_atom0"))
                ∧ is_Some (as_int (cell_of ir.2 "prjd_atom1"))) pairs.

(** ** Two small universes

    Three hydrogen atoms on a line in one free frame, and two hydrogen atoms
    in a periodic cubic cell of side 10, one of them just outside the cell.
    The collaborators below stand for the modules the universe delegates to;
    they return fixed tables of the right shape. *)
Module Sample.

Definition atom_row (x y z : string) : row :=
  {[ "symbol" := Obj "H"; "x" := Obj x; "y" := Obj y; "z" := Obj z;
     "frame" := Int 0 ]}.

Definition free_frame : DataFrame :=
  [(0, {[ "atom_count" := Int 3; "periodic" := Bool false ]})].

Definition free_atom : DataFrame :=
  [(0, atom_row "0.0" "0.0" "0.0"); (1, atom_row "0.0" "0.7" "0.0");
   (2, atom_row "0.0" "-0.7" "0.0")].

Definition free_pairs : DataFrame :=
  [(0, {[ "atom0_id" := Int 0; "atom1_id" := Int 1; "bond" := Bool true ]});
   (1, {[ "atom0_id" := Int 0; "atom1_id" := Int 2; "bond" := Bool true ]});
   (2, {[ "atom0_id" := Int 1; "atom1_id" := Int 2; "bond" := Bool false ]})].

Definition free_molecule : DataFrame :=
  [(0, {[ "frame" := Int 0; "formula" := Obj "H(3)" ]})].

Definition free_universe : state :=
  State [Table free_frame; Table free_atom]
        {[ "_frame" := VRef 0; "_atom" := VRef 1;
           "_projected_atom" := VNone; "_visual_atom" := VNone;
           "_field" := VNone ]}
        [].

Definition cell_frame : DataFrame :=
  [(0, {[ "atom_count" := Int 2; "periodic" := Bool true ]})].

Definition cell_atom : DataFrame :=
  [(0, atom_row "0.1" "0.0" "0.0"); (1, atom_row "10.05" "0.0" "0.0")].

(** The second atom folded back into the cell *)
Definition cell_unit_atom : DataFrame := [(1, {[ "x" := Obj "0.05" ]})].

Definition image (source : Z) (x : string) : row :=
  {[ "source_atom_id" := Int source; "x" := Obj x; "y" := Obj "0.0";
     "z" := Obj "0.0" ]}.

(** Images along the first axis only, to keep the table small *)
Definition cell_projected_atom : DataFrame :=
  [(0, image 0 "-9.9"); (1, image 0 "0.1"); (2, image 0 "10.1");
   (3, image 1 "-9.95"); (4, image 1 "0.05"); (5, image 1 "10.05")].

Definition cell_pairs : DataFrame :=
  [(0, {[ "prjd_atom0" := Int 1; "prjd_atom1" := Int 4;
          "bond" := Bool true ]})].

Definition cell_universe : state :=
  State [Table cell_frame; Table cell_atom]
        {[ "_frame" := VRef 0; "_atom" := VRef 1;
           "_projected_atom" := VNone; "_visual_atom" := VNone;
           "_field" := VNone ]}
        [].

(** The periodic cell with its projected atoms and its pairs computed *)
Definition bonded_cell : state :=
  State [Table cell_frame; Table cell_atom; Table cell_projected_atom;
         Table cell_pairs]
        {[ "_frame" := VRef 0; "_atom" := VRef 1;
           "_projected_atom" := VRef 2; "_two_periodic" := VRef 3 ]}
        [].

Definition frame_is_periodic (f : DataFrame) : bool :=
  bool_decide (Exists (λ ir, cell_of ir.2 "periodic" = Bool true) f).

Definition periodic_now (h : list object) (d : gmap string value) : bool :=
  from_option frame_is_periodic false (table_at h d "_frame").

Definition _cua : reader DataFrame := λ h d,
  Ret (if periodic_now h d then cell_unit_atom else []).

Definition _cva : reader DataFrame := _cua.

Definition _cpa : reader DataFrame := λ _ _, Ret cell_projected_atom.

Definition _cm : reader DataFrame := λ _ _, Ret free_molecule.

Definition _cmcom : reader DataFrame := λ _ _,
  Ret [(0, {[ "cx" := Obj "0.0"; "cy" := Obj "0.0"; "cz" := Obj "0.0" ]})].

Definition concat_columns (a b : DataFrame) : DataFrame :=
  (λ ir, (ir.1, ir.2 ∪ default ∅ (row_at ir.1 b))) <$> a.

Definition _ctb (_ : unit) : reader DataFrame := λ h d,
  Ret (if periodic_now h d then cell_pairs else free_pairs).

Definition minimal_frame (atom : DataFrame) : outcome DataFrame :=
  Ret [(0, {[ "atom_count" := Int (Z.of_nat (length atom));
              "periodic" := Bool false ]})].

Definition _reconstruct_field (o : object)
    (values : option (list (list cell))) : outcome object :=
  match o, values with
  | FieldTable _ _, _ => Ret o
  | Table df, Some vs => Ret (FieldTable vs df)
  | Table _, None => Raise TypeError
  end.

(** The first classifier whose identifier is the formula of the molecule
    gives the classification; a molecule none applies to is left alone. *)
Definition classify (cs : list classifier) (m : DataFrame)
    : outcome DataFrame :=
  Ret ((λ ir,
          match list_find (λ c : classifier,
                             cell_of ir.2 "formula" = Obj c.1.1) cs with
          | Some (_, c) => (ir.1, <["classification" := Obj c.1.2]> ir.2)
          | None => ir
          end) <$> m).

(** One orbital density on a 2x2x2 grid, and a second one *)
Definition grid (label : Z) : row :=
  {[ "nx" := Int 2; "ny" := Int 2; "nz" := Int 2; "label" := Int label ]}.

Definition density (v : Z) : list cell := replicate 8 (Int v).

(** A universe that already holds one field, and a field to append *)
Definition field_universe : state :=
  State [Table free_frame; Table free_atom;
         FieldTable [density 1] [(0, grid 0)];
         FieldTable [density 2; density 3] [(0, grid 1); (1, grid 2)]]
        {[ "_frame" := VRef 0; "_atom" := VRef 1; "_field" := VRef 2 ]}
        [].

End Sample.

(** ** The rest of the universe

    The accessors and methods of the class that the sections above do not
    need.  [Exception(message)] is [Failure message]. *)

(** [len(self.frame) if self._is('_frame') else 0] *)
Definition __len__ : M nat :=
  b ← hasattr "_frame";
  if (b : bool) then
    f ← get_typed "frame";
    df ← table_of (VRef f);
    mret (length df)
  else mret 0%nat.

Definition orbital : M value := getattr "_orbital".
Definition basis_set : M value := getattr "_basis_set".
Definition momatrix : M value := getattr "_momatrix".
Definition basis_set_summary : M value := getattr "_basis_set_summary".

Definition spherical_gtf_order : M value :=
  b ← hasattr "_spherical_gtf_order";
  if (b : bool) then getattr "_spherical_gtf_order"
  else raise (Failure "Compute spherical_gtf_order first!").

Definition cartesian_gtf_order : M value :=
  b ← hasattr "_cartesian_gtf_order";
  if (b : bool) then getattr "_cartesian_gtf_order"
  else raise (Failure "Compute cartesian_gtf_order first!").

(** Both methods start with [universe.basis_set[...]], and the module has
    no name [universe]: looking it up is a [NameError], before anything is
    computed or assigned. *)
Definition compute_spherical_gtf_order (ordering_func : value) : M unit :=
  enter "compute_spherical_gtf_order";;
  raise (Failure "NameError: name 'universe' is not defined").

Definition compute_cartesian_gtf_order (ordering_func : value) : M unit :=
  enter "compute_cartesian_gtf_order";;
  raise (Failure "NameError: name 'universe' is not defined").

(** The attributes the methods of the universe assign *)
Definition assigned : list string :=
  ["_frame"; "_unit_atom"; "_projected_atom"; "_visual_atom"; "_molecule";
   "_two_free"; "_two_periodic"; "_field"; "_traits_need_update"].

(** Every table that exists is left as it is. *)
Definition tables_kept (s s' : state) : Prop :=
  ∀ l o, heap s !! l = Some o → heap s' !! l = Some o.

(** ** The ADF NMR output editor

    [exatomic/adf/nmr/output.py].  The editor holds the lines of an output
    file; line numbers and list positions are natural numbers.  What the
    base class of the editor and the libraries do with the text of a block
    (searching, splitting into columns, converting numbers and units) is
    taken as it is called. *)

(** [pd.concat(dfs, ignore_index=True)] of tables that are there: the rows
    of the tables one after the other, labelled by their position. *)
Definition concat_all (dfs : list DataFrame) : DataFrame :=
  imap (λ i ir, (Z.of_nat i, ir.2)) (concat dfs).

(** [x.replace('(', '')] *)
Fixpoint strip_paren (x : string) : string :=
  match x with
  | EmptyString => EmptyString
  | String a x' =>
      if Ascii.eqb a "("%char then strip_paren x'
      else String a (strip_paren x')
  end.

Section Output.

(** [not line.strip()] *)
Variable is_blank : string → bool.

(** [self.pandas_dataframe(start, stop, ncol=5)] on the lines of a block and
    the work on its columns, the frame apart *)
Variable atom_table : list string → outcome DataFrame.

(** What the loop of [parse_nmr_shielding] reads at a nucleus: the tensor,
    the isotropic value, the atom, the symbol and the label, in one row *)
Variable shielding_at : nat → outcome row.

(** [while self[stop].strip(): stop += 1], with [rest] the lines from
    [stop] on: indexing past the last line is an [IndexError]. *)
Fixpoint scan (rest : list string) (stop : nat) : outcome nat :=
  match rest with
  | [] => Raise IndexError
  | line :: rest' =>
      if is_blank line then Ret stop else scan rest' (S stop)
  end.

(** The loop of [parse_atom]: the tables of the blocks met so far are
    returned with the lines of the editor, which the loop rewrites. *)
Fixpoint parse_atom_blocks (idx : nat) (found : list nat)
    (lines : list string) : outcome (list DataFrame) * list string :=
  match found with
  | [] => (Ret [], lines)
  | val :: found' =>
      let start := (val + 3)%nat in
      match scan (drop start lines) start with
      | Raise e => (Raise e, lines)
      | Ret stop =>
          let block :=
            strip_paren <$> take (stop - start) (drop start lines) in
          let lines' := take start lines ++ block ++ drop stop lines in
          match atom_table block with
          | Raise e => (Raise e, lines')
          | Ret df =>
              match parse_atom_blocks (S idx) found' lines' with
              | (Ret dfs, lines'') =>
                  (Ret (setitem_scalar "frame" (Int (Z.of_nat idx)) df
                        :: dfs), lines'')
              | (Raise e, lines'') => (Raise e, lines'')
              end
          end
      end
  end.

(** [parse_atom], given the lines [found] where the coordinates are
    announced: the table assigned to [self.atom], and the lines of the
    editor afterwards.  [pd.concat] of no table is a [ValueError]. *)
Definition parse_atom (found : list nat) (lines : list string)
    : outcome DataFrame * list string :=
  match parse_atom_blocks 0 found lines with
  | (Ret [], lines') => (Raise ValueError, lines')
  | (Ret dfs, lines') => (Ret (concat_all dfs), lines')
  | (Raise e, lines') => (Raise e, lines')
  end.

(** [ndx if start > ncalc[ndx] and start < ncalc[ndx+1] else ndx+1]; no
    value where an index is out of range.  The second comparison is made
    only when the first holds. *)
Definition next_ndx (ncalc : list nat) (ndx start : nat) : option nat :=
  c0 ← ncalc !! ndx;
  if bool_decide (c0 < start)%nat then
    c1 ← ncalc !! S ndx;
    Some (if bool_decide (start < c1)%nat then ndx else S ndx)
  else Some (S ndx).

(** The loop of [parse_nmr_shielding] *)
Fixpoint shielding_rows (ncalc : list nat) (ndx : nat) (found : list nat)
    : outcome (list row) :=
  match found with
  | [] => Ret []
  | start :: found' =>
      match next_ndx ncalc ndx start with
      | None => Raise IndexError
      | Some ndx' =>
          match shielding_at start with
          | Raise e => Raise e
          | Ret r =>
              match shielding_rows ncalc ndx' found' with
              | Ret rs => Ret (<["frame" := Int (Z.of_nat ndx')]> r :: rs)
              | Raise e => Raise e
              end
          end
      end
  end.

(** [parse_nmr_shielding], given the lines [found] of the nuclei, the lines
    [ncalc] where the coordinates of a calculation are announced and the
    number of lines: the table assigned to [self.nmr_shielding], or none
    where the method returns without assigning. *)
Definition parse_nmr_shielding (found ncalc : list nat) (nlines : nat)
    : outcome (option DataFrame) :=
  match found with
  | [] => Ret None
  | _ =>
      match shielding_rows (ncalc ++ [nlines]) 0 found with
      | Ret rs => Ret (Some (concat_all ((λ r, [(0, r)]) <$> rs)))
      | Raise e => Raise e
      end
  end.

End Output.

(** The frames a shielding table gives its rows *)
Definition frames_of (df : DataFrame) : list cell :=
  (λ ir, cell_of ir.2 "frame") <$> df.

(** The line [start] lies in calculation [k]: after the line that announces
    its coordinates and before the next such line, or the end. *)
Definition in_block (ncalc : list nat) (k start : nat) : Prop :=
  ∃ c0 c1, ncalc !! k = Some c0 ∧ ncalc !! S k = Some c1
           ∧ (c0 < start < c1)%nat.

(** From one nucleus to the next the calculation stays or goes up by one. *)
Fixpoint stepwise (prev : nat) (blocks : list nat) : Prop :=
  match blocks with
  | [] => True
  | b :: blocks' => (b = prev ∨ b = S prev) ∧ stepwise b blocks'
  end.

(** ** Running methods symbolically *)

Lemma heap_old (h l : list object) a x :
  h !! a = Some x → (h ++ l) !! a = Some x.
Proof. apply lookup_app_l_Some. Qed.

Lemma heap_new (h l : list object) i :
  (h ++ l) !! (length h + i)%nat = l !! i.
Proof. rewrite lookup_app_r by lia. f_equal. lia. Qed.

Lemma heap_new0 (h l : list object) : (h ++ l) !! length h = l !! 0%nat.
Proof. rewrite <- (heap_new h l 0). f_equal. lia. Qed.

Lemma heap_new1 (h l : list object) : (h ++ l) !! S (length h) = l !! 1%nat.
Proof. rewrite <- (heap_new h l 1). f_equal. lia. Qed.

Lemma heap_new2 (h l : list object) :
  (h ++ l) !! S (S (length h)) = l !! 2%nat.
Proof. rewrite <- (heap_new h l 2). f_equal. lia. Qed.

Lemma insert_old (h l : list object) a o x :
  h !! a = Some x → <[a := o]> (h ++ l) = <[a := o]> h ++ l.
Proof. intros H. apply insert_app_l. by eapply lookup_lt_Some. Qed.

Lemma insert_new (h l : list object) i o :
  <[(length h + i)%nat := o]> (h ++ l) = h ++ <[i := o]> l.
Proof. rewrite insert_app_r_alt by lia. do 2 f_equal. lia. Qed.

Lemma insert_new0 (h l : list object) o :
  <[length h := o]> (h ++ l) = h ++ <[0%nat := o]> l.
Proof. rewrite <- (insert_new h l 0). f_equal. lia. Qed.

Lemma insert_new1 (h l : list object) o :
  <[S (length h) := o]> (h ++ l) = h ++ <[1%nat := o]> l.
Proof. rewrite <- (insert_new h l 1). f_equal. lia. Qed.

Ltac munfold :=
  unfold mbind, M_bind, mret, M_ret, enter, call, lift, lift_option, raise,
    hasattr, getattr, setattr, alloc, deref, put, modify, copy, retype,
    setitem,
    table_of, get_typed, set_typed, slot in *.

Ltac heap_norm :=
  repeat first
    [ rewrite <- app_assoc
    | rewrite length_app
    | rewrite Nat.add_1_r
    | progress simpl ].

Ltac mstep :=
  first
    [ match goal with
      | H : _ !! _ = _ |- _ => rewrite H
      | H : _ = Ret _ |- _ => rewrite H
      | H : _ = Raise _ |- _ => rewrite H
      | H : _ = Some _ |- _ => rewrite H
      | H : _ = None |- _ => rewrite H
      | H : _ = true |- _ => rewrite H
      | H : _ = false |- _ => rewrite H
      | H : _ !! _ = Some _ |- _ => rewrite (heap_old _ _ _ _ H)
      | H : _ !! _ = Some _ |- _ => rewrite (insert_old _ _ _ _ _ H)
      end
    | rewrite heap_new0 | rewrite heap_new1 | rewrite heap_new2
    | rewrite insert_new0 | rewrite insert_new1
    | rewrite lookup_insert_eq
    | rewrite lookup_insert_ne by done
    | rewrite list_lookup_insert_eq by (eapply lookup_lt_Some; eassumption)
    | progress heap_norm ].

Ltac mrun := repeat (munfold; simpl; try mstep).

Ltac mdone := mrun; try done; repeat f_equal; try lia.

(** ** Lazy accessors *)

Section Accessors.

Variables _cua _cpa _cva _cm _cmcom : reader DataFrame.
Variable concat_columns : DataFrame → DataFrame → DataFrame.

Lemma unit_atom_absent h d c a adf ua :
  d !! "_unit_atom" = None →
  d !! "_atom" = Some (VRef a) →
  h !! a = Some (Table adf) →
  _cua h d = Ret ua →
  unit_atom _cua (State h d c) =
    (Ret (S (S (length h))),
     State (h ++ [Table ua; Table (update_table adf ua);
                  Table (update_table adf ua)])
           (<["_unit_atom" := VRef (length h)]> d)
           (c ++ ["compute_unit_atom"])).
Proof.
  intros Hu Ha Hh Hc.
  unfold unit_atom, _is, compute_unit_atom, update. mdone.
Qed.

Lemma unit_atom_present (f : reader DataFrame) h d c a adf u ua :
  d !! "_unit_atom" = Some (VRef u) →
  h !! u = Some (Table ua) →
  d !! "_atom" = Some (VRef a) →
  h !! a = Some (Table adf) →
  unit_atom f (State h d c) =
    (Ret (S (length h)),
     State (h ++ [Table (update_table adf ua); Table (update_table adf ua)])
           d c).
Proof.
  intros Hu Hhu Ha Hh.
  unfold unit_atom, _is, compute_unit_atom, update. mdone.
Qed.

Lemma projected_atom_none h d c p :
  d !! "_projected_atom" = Some VNone →
  _cpa h d = Ret p →
  projected_atom _cpa (State h d c) =
    (Ret (VRef (length h)),
     State (h ++ [Table p]) (<["_projected_atom" := VRef (length h)]> d)
           (c ++ ["compute_projected_atom"])).
Proof.
  intros Hp Hc. unfold projected_atom, compute_projected_atom. mdone.
Qed.

Lemma projected_atom_present (f : reader DataFrame) h d c l :
  d !! "_projected_atom" = Some (VRef l) →
  projected_atom f (State h d c) = (Ret (VRef l), State h d c).
Proof.
  intros Hp. unfold projected_atom, compute_projected_atom. mdone.
Qed.

Lemma molecule_absent h d c m :
  d !! "_molecule" = None →
  _cm h d = Ret m →
  molecule _cva _cm _cmcom concat_columns (State h d c) =
    (Ret (VRef (length h)),
     State (h ++ [Table m]) (<["_molecule" := VRef (length h)]> d)
           (c ++ ["compute_molecule"])).
Proof.
  intros Hm Hc. unfold molecule, _is, compute_molecule. mdone.
Qed.

Lemma molecule_present (f1 f2 f3 : reader DataFrame) g h d c v :
  d !! "_molecule" = Some v →
  molecule f1 f2 f3 g (State h d c) = (Ret v, State h d c).
Proof.
  intros Hm. unfold molecule, _is, compute_molecule. mdone.
Qed.

(** C1, as amended.  On a universe whose derived tables have not been
    computed, each lazy accessor runs its own compute method, once, and a
    second access runs none.  [projected_atom] (absent: the attribute holds
    [None]) and [molecule] (absent: the attribute is not set) return the
    cached table itself, and the second access leaves the universe as it
    is, whatever the collaborators are.  [unit_atom] (absent: the attribute
    is not set) caches the sparse overlay and returns, on every access, a
    new table: the Atom table with the cached overlay written over it. *)
Theorem lazy_accessors_compute_once h d c a adf ua p m :
  d !! "_atom" = Some (VRef a) → h !! a = Some (Table adf) →
  d !! "_unit_atom" = None → _cua h d = Ret ua →
  d !! "_projected_atom" = Some VNone → _cpa h d = Ret p →
  d !! "_molecule" = None → _cm h d = Ret m →
  (∃ l u s1,
      unit_atom _cua (State h d c) = (Ret l, s1)
      ∧ calls s1 = c ++ ["compute_unit_atom"]
      ∧ self s1 !! "_unit_atom" = Some (VRef u)
      ∧ heap s1 !! u = Some (Table ua)
      ∧ heap s1 !! l = Some (Table (update_table adf ua))
      ∧ (length h ≤ l)%nat
      ∧ ∀ f, ∃ l' s2,
          unit_atom f s1 = (Ret l', s2)
          ∧ calls s2 = calls s1 ∧ self s2 = self s1
          ∧ heap s2 !! l' = Some (Table (update_table adf ua))
          ∧ (length (heap s1) ≤ l')%nat)
  ∧ (∃ l s1,
      projected_atom _cpa (State h d c) = (Ret (VRef l), s1)
      ∧ calls s1 = c ++ ["compute_projected_atom"]
      ∧ self s1 !! "_projected_atom" = Some (VRef l)
      ∧ heap s1 !! l = Some (Table p)
      ∧ ∀ f, projected_atom f s1 = (Ret (VRef l), s1))
  ∧ (∃ l s1,
      molecule _cva _cm _cmcom concat_columns (State h d c)
        = (Ret (VRef l), s1)
      ∧ calls s1 = c ++ ["compute_molecule"]
      ∧ self s1 !! "_molecule" = Some (VRef l)
      ∧ heap s1 !! l = Some (Table m)
      ∧ ∀ f1 f2 f3 g, molecule f1 f2 f3 g s1 = (Ret (VRef l), s1)).
Proof.
  intros Ha Hh Hu Hcua Hp Hcpa Hm Hcm. split; [|split].
  - eexists _, _, _. split; [eapply unit_atom_absent; eassumption|].
    simpl. split; [done|]. rewrite lookup_insert_eq. split; [done|].
    rewrite heap_new0, heap_new2. repeat split; [lia|].
    intros f. eexists _, _. split.
    + eapply unit_atom_present.
      * apply lookup_insert_eq.
      * by rewrite heap_new0.
      * by rewrite lookup_insert_ne.
      * by apply heap_old.
    + simpl. rewrite heap_new1. repeat split. lia.
  - eexists _, _. split; [by apply projected_atom_none|].
    simpl. rewrite lookup_insert_eq, heap_new0. repeat split.
    intros f. apply projected_atom_present, lookup_insert_eq.
  - eexists _, _. split; [by apply molecule_absent|].
    simpl. rewrite lookup_insert_eq, heap_new0. repeat split.
    intros f1 f2 f3 g. apply molecule_present, lookup_insert_eq.
Qed.

End Accessors.

Lemma lazy_accessors_compute_once_sample :
  ∃ l s1,
    projected_atom Sample._cpa Sample.cell_universe = (Ret (VRef l), s1)
    ∧ calls s1 = ["compute_projected_atom"]
    ∧ heap s1 !! l = Some (Table Sample.cell_projected_atom)
    ∧ projected_atom Sample._cpa s1 = (Ret (VRef l), s1).
Proof.
  destruct (lazy_accessors_compute_once
              Sample._cua Sample._cpa Sample._cva Sample._cm Sample._cmcom
              Sample.concat_columns
              (heap Sample.cell_universe) (self Sample.cell_universe) []
              1%nat Sample.cell_atom Sample.cell_unit_atom
              Sample.cell_projected_atom Sample.free_molecule)
    as (_ & (l & s1 & Hrun & Hcalls & _ & Hheap & Hagain) & _);
    try (vm_compute; reflexivity).
  exists l, s1. repeat split; try assumption. apply Hagain.
Defined.

(** C1 as stated fails for [unit_atom]: in the periodic cell the accessor
    returns the two-row Atom table with the folded position written in,
    while the cache holds the one-row overlay. *)
Lemma unit_atom_is_not_its_cache :
  ¬ returns_cached (unit_atom Sample._cua) "_unit_atom" Sample.cell_universe.
Proof.
  intros (l & s' & u & Hrun & Hu & Heq).
  vm_compute in Hrun. injection Hrun as <- <-.
  vm_compute in Hu. injection Hu as <-.
  vm_compute in Heq. discriminate.
Qed.

(** ** Operations left out *)

(** C9.  [append_dataframe] and [slice_by_molecules] raise
    [NotImplementedError] whatever they are given, and leave the universe,
    the tables and the record of calls exactly as they were. *)
Theorem unsupported_operations_raise (df identifier : value) (s : state) :
  append_dataframe df s = (Raise NotImplementedError, s)
  ∧ slice_by_molecules identifier s = (Raise NotImplementedError, s).
Proof. split; reflexivity. Qed.

(** ** Truncating the projected atoms *)

Lemma astype_int64_column (c : string) (df : DataFrame) :
  Forall (λ ir, is_Some (as_int (cell_of ir.2 c))) df →
  ∃ ids, astype_int64 (column c df) = Some ids
         ∧ ∀ i, i ∈ ids ↔ ∃ ir, ir ∈ df ∧ cell_of ir.2 c = Int i.
Proof.
  unfold astype_int64, column.
  induction 1 as [|[j r] df [n Hn] _ (ids & Hids & Hmem)]; cbn in *.
  - exists []. split; [done|]. intros i. split.
    + by intros ?%elem_of_nil.
    + by intros (? & ?%elem_of_nil & _).
  - exists (n :: ids). rewrite Hn. cbn. rewrite Hids. split; [done|].
    intros i. rewrite elem_of_cons, Hmem. split.
    + intros [->|(ir & Hir & Hc)].
      * exists (j, r). split; [left|]. simpl.
        destruct (cell_of r c); by simplify_eq/=.
      * exists ir. split; [by right|done].
    + intros (ir & [->|Hir]%elem_of_cons & Hc); simpl in *.
      * left. rewrite Hc in Hn. by simplify_eq/=.
      * right. by exists ir.
Qed.

Lemma truncate_projected_atom_run h d c t pairs p pdf pa0 pa1 :
  d !! "periodic_two" = Some (VRef t) → h !! t = Some (Table pairs) →
  d !! "_projected_atom" = Some (VRef p) → h !! p = Some (Table pdf) →
  astype_int64 (column "prjd_atom0" pairs) = Some pa0 →
  astype_int64 (column "prjd_atom1" pairs) = Some pa1 →
  truncate_projected_atom (State h d c) =
    (Ret tt,
     State (h ++ [Table (select_isin (pa0 ++ pa1) pdf)])
           (<["_projected_atom" := VRef (length h)]> d)
           (c ++ ["truncate_projected_atom"])).
Proof.
  intros Ht Hht Hp Hhp H0 H1. unfold truncate_projected_atom. mdone.
Qed.



(** ** Two-body properties *)

Section TwoBody.

Variable Args : Type.
Variable _ctb : Args → reader DataFrame.
Variable frame_is_periodic : DataFrame → bool.

Lemma compute_two_body_free args flag h d c f fdf r :
  d !! "_frame" = Some (VRef f) → h !! f = Some (Table fdf) →
  frame_is_periodic fdf = false →
  _ctb args h d = Ret r →
  compute_two_body Args _ctb frame_is_periodic args flag (State h d c) =
    (Ret tt,
     State (h ++ [Table r]) (<["_two_free" := VRef (length h)]> d)
           (c ++ ["compute_two_body"])).
Proof.
  intros Hf Hh Hp Hr. unfold compute_two_body, is_periodic. mdone.
Qed.

Lemma compute_two_body_periodic_kept args h d c f fdf r :
  d !! "_frame" = Some (VRef f) → h !! f = Some (Table fdf) →
  frame_is_periodic fdf = true →
  _ctb args h d = Ret r →
  compute_two_body Args _ctb frame_is_periodic args false (State h d c) =
    (Ret tt,
     State (h ++ [Table r]) (<["_two_periodic" := VRef (length h)]> d)
           (c ++ ["compute_two_body"])).
Proof.
  intros Hf Hh Hp Hr. unfold compute_two_body, is_periodic. mdone.
Qed.

(** With the flag set, a periodic universe goes on to
    [truncate_projected_atom], which looks the pair table up under
    [periodic_two], not under [two_periodic] where it has just been put. *)
Lemma compute_two_body_periodic_raises args h d c f fdf r :
  d !! "_frame" = Some (VRef f) → h !! f = Some (Table fdf) →
  frame_is_periodic fdf = true →
  _ctb args h d = Ret r →
  d !! "periodic_two" = None →
  compute_two_body Args _ctb frame_is_periodic args true (State h d c) =
    (Raise AttributeError,
     State (h ++ [Table r]) (<["_two_periodic" := VRef (length h)]> d)
           (c ++ ["compute_two_body"; "truncate_projected_atom"])).
Proof.
  intros Hf Hh Hp Hr Hn.
  unfold compute_two_body, is_periodic, truncate_projected_atom. mdone.
Qed.

(** A universe that is not periodic: whatever the collaborator does,
    return or raise, [compute_two_body] leaves the projected atoms and every
    table that exists alone, and does not enter the truncation. *)
Lemma compute_two_body_free_untouched args flag h d c f ft :
  d !! "_frame" = Some (VRef f) → h !! f = Some ft →
  frame_is_periodic (frame_of ft) = false →
  let s' := (compute_two_body Args _ctb frame_is_periodic args flag
               (State h d c)).2 in
  self s' !! "_projected_atom" = d !! "_projected_atom"
  ∧ (∀ l o, h !! l = Some o → heap s' !! l = Some o)
  ∧ calls s' = c ++ ["compute_two_body"].
Proof.
  intros Hf Hh Hp. unfold compute_two_body, is_periodic. mrun.
  destruct (_ctb args h d) as [r|e]; simpl.
  - split; [by rewrite lookup_insert_ne|]. split; [|done].
    intros l o. apply heap_old.
  - done.
Qed.

End TwoBody.

(** *** Which attributes a method assigns *)

Create HintDb keeps.

Lemma keeps_ret {A} x (a : A) : keeps x (mret a).
Proof. done. Qed.

Lemma keeps_bind {A B} x (m : M A) (k : A → M B) :
  keeps x m → (∀ a, keeps x (k a)) → keeps x (m ≫= k).
Proof.
  intros Hm Hk s. unfold mbind, M_bind. specialize (Hm s).
  destruct (m s) as [[a|e] s']; simpl in *; [|done].
  by rewrite Hk.
Qed.

Lemma keeps_raise {A} x e : keeps x (raise (A := A) e).
Proof. done. Qed.

Lemma keeps_call {A} x (f : reader A) : keeps x (call f).
Proof. done. Qed.

Lemma keeps_lift {A} x (o : outcome A) : keeps x (lift o).
Proof. done. Qed.

Lemma keeps_lift_option {A} x e (o : option A) : keeps x (lift_option e o).
Proof. by destruct o. Qed.

Lemma keeps_enter x name : keeps x (enter name).
Proof. done. Qed.

Lemma keeps_hasattr x y : keeps x (hasattr y).
Proof. done. Qed.

Lemma keeps_getattr x y : keeps x (getattr y).
Proof. intros s. unfold getattr. by destruct (self s !! y). Qed.

Lemma keeps_setattr x y v : x ≠ y → keeps x (setattr y v).
Proof. intros Hne s. simpl. by rewrite lookup_insert_ne. Qed.

Lemma keeps_alloc x o : keeps x (alloc o).
Proof. done. Qed.

Lemma keeps_deref x l : keeps x (deref l).
Proof. intros s. unfold deref. by destruct (heap s !! l). Qed.

Lemma keeps_put x l o : keeps x (put l o).
Proof. done. Qed.

Lemma keeps_get_typed x name : keeps x (get_typed name).
Proof.
  intros s. unfold get_typed. by destruct (self s !! slot name) as [[]|].
Qed.

#[global] Hint Resolve keeps_ret keeps_raise keeps_call keeps_lift
  keeps_lift_option keeps_enter keeps_hasattr keeps_getattr keeps_alloc
  keeps_deref keeps_put keeps_get_typed : keeps.

(** Goes through a method along its binds and branches; what is left are
    the assignments, each with the name it assigns. *)
Ltac keeps_step :=
  match goal with
  | |- keeps _ (_ ≫= _) => apply keeps_bind; [|intros]
  | |- keeps _ (if ?b then _ else _) => destruct b
  | |- keeps _ (match ?v with _ => _ end) => destruct v
  | |- keeps _ (setattr _ _) => apply keeps_setattr; discriminate
  | |- keeps _ _ => solve [eauto with keeps]
  end.

Ltac keeps_all :=
  unfold table_of, modify, copy, retype, set_typed, _is;
  repeat keeps_step.

Lemma keeps_table_of x v : keeps x (table_of v).
Proof. keeps_all. Qed.

Lemma keeps_modify x l f : keeps x (modify l f).
Proof. keeps_all. Qed.

Lemma keeps_copy x l : keeps x (copy l).
Proof. keeps_all. Qed.

Lemma keeps_retype x l : keeps x (retype l).
Proof. keeps_all. Qed.

#[global] Hint Resolve keeps_table_of keeps_modify keeps_copy keeps_retype
  : keeps.

Lemma keeps_setitem x v f : keeps x (setitem v f).
Proof. destruct v; simpl; eauto with keeps. Qed.

Lemma keeps_update x l v : keeps x (update l v).
Proof. destruct v; simpl; eauto with keeps. repeat keeps_step. Qed.

#[global] Hint Resolve keeps_setitem keeps_update : keeps.

Section Assignments.

Variable Args : Type.
Variables _cua _cpa _cva _cm _cmcom : reader DataFrame.
Variable _ctb : Args → reader DataFrame.
Variables _cbc _cpbc : reader (gmap Z Z).
Variable minimal_frame : DataFrame → outcome DataFrame.
Variable frame_is_periodic : DataFrame → bool.
Variable concat_columns : DataFrame → DataFrame → DataFrame.
Variable _reconstruct_field :
  object → option (list (list cell)) → outcome object.
Variable classify : list classifier → DataFrame → outcome DataFrame.

(** No method of the universe assigns the attribute [periodic_two]: a
    universe that starts without it never has it. *)
Lemma periodic_two_never_assigned :
  keeps "periodic_two" (compute_frame minimal_frame)
  ∧ keeps "periodic_two" (compute_unit_atom _cua)
  ∧ keeps "periodic_two" (compute_projected_atom _cpa)
  ∧ keeps "periodic_two" (compute_visual_atom _cva)
  ∧ (∀ com, keeps "periodic_two"
              (compute_molecule _cva _cm _cmcom concat_columns com))
  ∧ keeps "periodic_two" (unit_atom _cua)
  ∧ keeps "periodic_two" (visual_atom _cva frame_is_periodic)
  ∧ keeps "periodic_two" (projected_atom _cpa)
  ∧ keeps "periodic_two" (molecule _cva _cm _cmcom concat_columns)
  ∧ keeps "periodic_two" truncate_projected_atom
  ∧ (∀ args flag, keeps "periodic_two"
                    (compute_two_body Args _ctb frame_is_periodic args flag))
  ∧ keeps "periodic_two" (compute_bond_count _cbc)
  ∧ keeps "periodic_two" (compute_projected_bond_count _cpa _cpbc)
  ∧ (∀ field frame fv, keeps "periodic_two"
                         (append_field _reconstruct_field field frame fv))
  ∧ (∀ cs, keeps "periodic_two"
             (classify_molecules _cva _cm _cmcom concat_columns classify cs)).
Proof.
  assert (Hcva : keeps "periodic_two" (compute_visual_atom _cva)).
  { unfold compute_visual_atom. keeps_all. }
  assert (Hcpa : keeps "periodic_two" (compute_projected_atom _cpa)).
  { unfold compute_projected_atom. keeps_all. }
  assert (Hcm : ∀ com, keeps "periodic_two"
                  (compute_molecule _cva _cm _cmcom concat_columns com)).
  { intros com. unfold compute_molecule. keeps_all. }
  assert (Hpa : keeps "periodic_two" (projected_atom _cpa)).
  { unfold projected_atom. keeps_all. }
  assert (Hmol : keeps "periodic_two"
                   (molecule _cva _cm _cmcom concat_columns)).
  { unfold molecule. keeps_all. }
  assert (Hper : keeps "periodic_two" (is_periodic frame_is_periodic)).
  { unfold is_periodic. keeps_all. }
  assert (Htr : keeps "periodic_two" truncate_projected_atom).
  { unfold truncate_projected_atom. keeps_all. }
  repeat split; try assumption; intros.
  - unfold compute_frame. keeps_all.
  - unfold compute_unit_atom. keeps_all.
  - unfold unit_atom, compute_unit_atom. keeps_all.
  - unfold visual_atom. keeps_all.
  - unfold compute_two_body. keeps_all.
  - unfold compute_bond_count. keeps_all.
  - unfold compute_projected_bond_count. keeps_all.
  - unfold append_field, field_values_of. keeps_all.
  - unfold classify_molecules. keeps_all.
Qed.

End Assignments.

(** C3, the periodic cell with its projected atoms computed.
    [compute_two_body], flag left at its default, stores the pair table
    under [two_periodic] and then raises [AttributeError] from
    [truncate_projected_atom], which asks for [periodic_two]
    ([compute_two_body_periodic_raises]; no method assigns that attribute,
    [periodic_two_never_assigned]): all six projected atoms are still there,
    though the pair table refers to two of them. *)
Theorem compute_two_body_periodic_leaves_projected_atom :
  ∃ s s',
    projected_atom Sample._cpa Sample.cell_universe
      = (Ret (VRef 2), s)
    ∧ compute_two_body unit Sample._ctb Sample.frame_is_periodic tt true s
      = (Raise AttributeError, s')
    ∧ table_at (heap s') (self s') "_two_periodic" = Some Sample.cell_pairs
    ∧ table_at (heap s') (self s') "_projected_atom"
      = Some Sample.cell_projected_atom
    ∧ index (select_isin [1; 4] Sample.cell_projected_atom) = [1; 4]
    ∧ index Sample.cell_projected_atom = [0; 1; 2; 3; 4; 5].
Proof.
  eexists _, _. split; [vm_compute; reflexivity|].
  split; [vm_compute; reflexivity|].
  repeat split; vm_compute; reflexivity.
Qed.

(** ** Reassigning a base table *)






(** ** The field store *)

Lemma concat_ignore_index_length (a b : DataFrame) :
  length (concat_ignore_index a b) = (length a + length b)%nat.
Proof. unfold concat_ignore_index. by rewrite length_imap, length_app. Qed.



Lemma concat_ignore_index_labels (a b : DataFrame) :
  index (concat_ignore_index a b)
    = Z.of_nat <$> seq 0 (length a + length b).
Proof.
  unfold index, concat_ignore_index. rewrite fmap_imap.
  rewrite <- length_app. apply (imap_seq_0 (a ++ b) Z.of_nat).
Qed.


Section Fields.

Variable _reconstruct_field :
  object → option (list (list cell)) → outcome object.

Lemma append_field_to_store field fv h d c old ov odf fo nv ndf :
  d !! "_field" = Some (VRef old) → h !! old = Some (FieldTable ov odf) →
  h !! field = Some fo →
  _reconstruct_field fo fv = Ret (FieldTable nv ndf) →
  append_field _reconstruct_field field NoFrame fv (State h d c) =
    (Ret tt,
     State (h ++ [FieldTable nv ndf;
                  FieldTable (ov ++ nv) (concat_ignore_index odf ndf)])
           (<["_traits_need_update" := VBool true]>
              (<["_field" := VRef (S (length h))]> d))
           c).
Proof.
  intros Hf Hold Hfo Hr.
  unfold append_field, field_values_of. mdone.
Qed.


Lemma append_field_bad_frame field z fv h d c f ft :
  d !! "_frame" = Some (VRef f) → h !! f = Some ft →
  z ∉ index (frame_of ft) →
  append_field _reconstruct_field field (IntFrame z) fv (State h d c)
  = (Raise IndexError, State h d c).
Proof.
  intros Hf Hh Hz. unfold append_field. mrun.
  rewrite decide_False by done. reflexivity.
Qed.

Lemma append_field_good_frame field z fv h d c f ft fo :
  d !! "_frame" = Some (VRef f) → h !! f = Some ft →
  z ∈ index (frame_of ft) →
  h !! field = Some fo →
  append_field _reconstruct_field field (IntFrame z) fv (State h d c)
  = append_field _reconstruct_field field NoFrame fv
      (State (<[field := framed (IntFrame z) fo]> h) d c).
Proof.
  intros Hf Hh Hz Hfo. unfold append_field, framed. mrun.
  rewrite decide_True by done. mrun. reflexivity.
Qed.

Lemma framed_rows z fo :
  index (frame_of (framed (IntFrame z) fo)) = index (frame_of fo)
  ∧ ∀ ir, ir ∈ frame_of (framed (IntFrame z) fo)
          → ir.2 !! "frame" = Some (Int z).
Proof.
  assert (H : ∀ df : DataFrame,
             index (setitem_scalar "frame" (Int z) df) = index df
             ∧ ∀ ir, ir ∈ setitem_scalar "frame" (Int z) df
                     → ir.2 !! "frame" = Some (Int z)).
  { intros df. unfold index, setitem_scalar. split.
    - rewrite <- list_fmap_compose. by apply list_fmap_ext.
    - intros ir (? & -> & _)%list_elem_of_fmap. apply lookup_insert_eq. }
  destruct fo; apply H.
Qed.


(** C6.  With an integer [frame] that is not in the index of the Frame
    table, [append_field] raises [IndexError] and leaves everything as it
    was: the field store, the field handed in, every table.  With one that
    is in the index, the frame is written into every dimension row of the
    field handed in, and the call goes on as one without a frame does. *)
Theorem append_field_checks_frame field z fv h d c f ft fo :
  d !! "_frame" = Some (VRef f) → h !! f = Some ft →
  h !! field = Some fo →
  (z ∉ index (frame_of ft) →
     append_field _reconstruct_field field (IntFrame z) fv (State h d c)
     = (Raise IndexError, State h d c))
  ∧ (z ∈ index (frame_of ft) →
       append_field _reconstruct_field field (IntFrame z) fv (State h d c)
       = append_field _reconstruct_field field NoFrame fv
           (State (<[field := framed (IntFrame z) fo]> h) d c)
       ∧ index (frame_of (framed (IntFrame z) fo)) = index (frame_of fo)
       ∧ ∀ ir, ir ∈ frame_of (framed (IntFrame z) fo)
               → ir.2 !! "frame" = Some (Int z)).
Proof.
  intros Hf Hh Hfo. split; intros Hz.
  - by eapply append_field_bad_frame.
  - split; [by eapply append_field_good_frame|apply framed_rows].
Qed.

End Fields.


Lemma append_field_checks_frame_sample :
  append_field Sample._reconstruct_field 3 (IntFrame 7) None
    Sample.field_universe = (Raise IndexError, Sample.field_universe)
  ∧ append_field Sample._reconstruct_field 3 (IntFrame 0) None
      Sample.field_universe
    = append_field Sample._reconstruct_field 3 NoFrame None
        (State (<[3%nat := framed (IntFrame 0)
                    (FieldTable [Sample.density 2; Sample.density 3]
                       [(0, Sample.grid 1); (1, Sample.grid 2)])]>
                  (heap Sample.field_universe))
               (self Sample.field_universe) []).
Proof.
  destruct (append_field_checks_frame Sample._reconstruct_field
              3%nat 7 None
              (heap Sample.field_universe) (self Sample.field_universe) []
              0%nat (Table Sample.free_frame)
              (FieldTable [Sample.density 2; Sample.density 3]
                 [(0, Sample.grid 1); (1, Sample.grid 2)]))
    as [Hbad _]; try (vm_compute; reflexivity).
  destruct (append_field_checks_frame Sample._reconstruct_field
              3%nat 0 None
              (heap Sample.field_universe) (self Sample.field_universe) []
              0%nat (Table Sample.free_frame)
              (FieldTable [Sample.density 2; Sample.density 3]
                 [(0, Sample.grid 1); (1, Sample.grid 2)]))
    as [_ Hgood]; try (vm_compute; reflexivity).
  split.
  - apply Hbad. vm_compute. intros [?|?]%elem_of_cons; [done|].
    by eapply elem_of_nil.
  - apply Hgood. vm_compute. left.
Defined.

(** ** Bond counts *)



Lemma cell_of_insert (r : row) c v : cell_of (<[c := v]> r) c = v.
Proof. unfold cell_of. by rewrite lookup_insert_eq. Qed.

Lemma fill_int_values_aligned c d bc (df : DataFrame) :
  fill_int_values c d (setitem_aligned c bc df)
  = Some ((λ ir, default d (bc !! ir.1)) <$> df).
Proof.
  unfold fill_int_values, setitem_aligned.
  induction df as [|[i r] df IH]; [done|]. cbn in *.
  rewrite cell_of_insert, IH. by destruct (bc !! i).
Qed.

Lemma setitem_values_aligned c d bc (df : DataFrame) :
  setitem_values c ((λ ir, default d (bc !! ir.1)) <$> df)
    (setitem_aligned c bc df)
  = counted c d bc df.
Proof.
  unfold setitem_values, setitem_aligned, counted.
  induction df as [|[i r] df IH]; [done|]. cbn in *.
  rewrite IH. by rewrite insert_insert_eq.
Qed.

Lemma counted_index c d bc df : index (counted c d bc df) = index df.
Proof.
  unfold index, counted. rewrite <- list_fmap_compose.
  by apply list_fmap_ext.
Qed.


Lemma compute_bond_count_run (_cbc : reader (gmap Z Z)) h d c a adf bc :
  d !! "_atom" = Some (VRef a) → h !! a = Some (Table adf) →
  _cbc h d = Ret bc →
  compute_bond_count _cbc (State h d c) =
    (Ret tt,
     State (<[a := Table (counted "bond_count" 0 bc adf)]> h) d
           (c ++ ["compute_bond_count"])).
Proof.
  intros Ha Hh Hbc. unfold compute_bond_count. mrun.
  rewrite fill_int_values_aligned. mrun.
  rewrite list_insert_insert_eq, setitem_values_aligned. reflexivity.
Qed.




(** ** Classifying molecules *)

Section Molecules.

Variables _cva _cm _cmcom : reader DataFrame.
Variable concat_columns : DataFrame → DataFrame → DataFrame.
Variable classify : list classifier → DataFrame → outcome DataFrame.

Lemma classify_molecules_absent cs h d c m m' :
  d !! "_molecule" = None →
  _cm h d = Ret m →
  classify cs m = Ret m' →
  classify_molecules _cva _cm _cmcom concat_columns classify cs
    (State h d c) =
    (Ret tt,
     State (h ++ [Table m']) (<["_molecule" := VRef (length h)]> d)
           (c ++ ["compute_molecule"])).
Proof.
  intros Hm Hcm Hcl.
  unfold classify_molecules, molecule, _is, compute_molecule. mdone.
Qed.

Lemma classify_molecules_present
    (f1 f2 f3 : reader DataFrame) g cs h d c l m m' :
  d !! "_molecule" = Some (VRef l) →
  h !! l = Some (Table m) →
  classify cs m = Ret m' →
  classify_molecules f1 f2 f3 g classify cs (State h d c) =
    (Ret tt, State (<[l := Table m']> h) d c).
Proof.
  intros Hm Hh Hcl.
  unfold classify_molecules, molecule, _is, compute_molecule. mdone.
Qed.

(** C8.  On a universe whose Molecule table has not been computed,
    [classify_molecules] enters [compute_molecule], once, and classifies
    the table it computes; called again, now that the table is there, it
    classifies the cached table in place and enters no compute method,
    whatever the collaborators are. *)
Theorem classify_molecules_computes_first cs cs' h d c m m1 m2 :
  d !! "_molecule" = None →
  _cm h d = Ret m →
  classify cs m = Ret m1 →
  classify cs' m1 = Ret m2 →
  ∃ l s1,
    classify_molecules _cva _cm _cmcom concat_columns classify cs
      (State h d c) = (Ret tt, s1)
    ∧ calls s1 = c ++ ["compute_molecule"]
    ∧ self s1 !! "_molecule" = Some (VRef l)
    ∧ heap s1 !! l = Some (Table m1)
    ∧ ∀ f1 f2 f3 g, ∃ s2,
        classify_molecules f1 f2 f3 g classify cs' s1 = (Ret tt, s2)
        ∧ calls s2 = calls s1
        ∧ self s2 = self s1
        ∧ heap s2 !! l = Some (Table m2).
Proof.
  intros Hm Hcm Hc1 Hc2.
  eexists _, _. split; [by eapply classify_molecules_absent|]. simpl.
  rewrite lookup_insert_eq, heap_new0. repeat split.
  intros f1 f2 f3 g. eexists. split.
  - eapply classify_molecules_present; [apply lookup_insert_eq| |done].
    by rewrite heap_new0.
  - simpl. repeat split. rewrite insert_new0. by rewrite heap_new0.
Qed.

End Molecules.

Lemma classify_molecules_computes_first_sample :
  ∃ l s1,
    classify_molecules Sample._cva Sample._cm Sample._cmcom
      Sample.concat_columns Sample.classify
      [("Na", "solute", true); ("H(3)", "trihydrogen", true)]
      Sample.free_universe = (Ret tt, s1)
    ∧ calls s1 = ["compute_molecule"]
    ∧ self s1 !! "_molecule" = Some (VRef l)
    ∧ (column "classification" <$> (frame_of <$> heap s1 !! l))
      = Some [(0, Obj "trihydrogen")].
Proof.
  destruct (classify_molecules_computes_first
              Sample._cva Sample._cm Sample._cmcom Sample.concat_columns
              Sample.classify
              [("Na", "solute", true); ("H(3)", "trihydrogen", true)] []
              (heap Sample.free_universe) (self Sample.free_universe) []
              Sample.free_molecule
              [(0, <["classification" := Obj "trihydrogen"]>
                     {[ "frame" := Int 0; "formula" := Obj "H(3)" ]})]
              [(0, <["classification" := Obj "trihydrogen"]>
                     {[ "frame" := Int 0; "formula" := Obj "H(3)" ]})])
    as (l & s1 & Hrun & Hcalls & Hl & Hh & _); try (vm_compute; reflexivity).
  exists l, s1. repeat split; try assumption. by rewrite Hh.
Defined.

(** ** Visual atoms *)

Lemma update_table_index (df other : DataFrame) :
  index (update_table df other) = index df.
Proof.
  unfold index, update_table. rewrite <- list_fmap_compose.
  by apply list_fmap_ext.
Qed.

Lemma update_row_lookup (r o : row) c :
  update_row r o !! c
  = (λ v, match o !! c with
          | Some w => if isna w then v else w
          | None => v
          end) <$> r !! c.
Proof.
  unfold update_row. rewrite map_lookup_imap.
  by destruct (r !! c).
Qed.

Section VisualAtom.

Variable _cva : reader DataFrame.
Variable frame_is_periodic : DataFrame → bool.

Lemma visual_atom_free h d c f ft a :
  d !! "_frame" = Some (VRef f) → h !! f = Some ft →
  frame_is_periodic (frame_of ft) = false →
  d !! "_atom" = Some (VRef a) →
  visual_atom _cva frame_is_periodic (State h d c) = (Ret a, State h d c).
Proof.
  intros Hf Hh Hp Ha. unfold visual_atom, is_periodic. mdone.
Qed.

Lemma visual_atom_periodic h d c f ft a adf va :
  d !! "_frame" = Some (VRef f) → h !! f = Some ft →
  frame_is_periodic (frame_of ft) = true →
  d !! "_atom" = Some (VRef a) → h !! a = Some (Table adf) →
  d !! "_visual_atom" = Some VNone →
  _cva h d = Ret va →
  visual_atom _cva frame_is_periodic (State h d c) =
    (Ret (S (length h)),
     State (h ++ [Table va; Table (update_table adf va)])
           (<["_visual_atom" := VRef (length h)]> d)
           (c ++ ["compute_visual_atom"])).
Proof.
  intros Hf Hh Hp Ha Hha Hv Hc.
  unfold visual_atom, is_periodic, compute_visual_atom, update. mdone.
Qed.

(** C10.  In a universe that is not periodic, [visual_atom] returns the
    Atom table itself, the very object the universe holds, and changes
    nothing: no overlay is computed or kept.  In a periodic universe whose
    overlay has not been computed, it enters [compute_visual_atom], keeps
    the overlay, and returns a new table, the rows of Atom with the
    overlay written over them; the Atom table the universe holds is as it
    was. *)
Theorem visual_atom_overlay h d c f ft a adf :
  d !! "_frame" = Some (VRef f) → h !! f = Some ft →
  d !! "_atom" = Some (VRef a) → h !! a = Some (Table adf) →
  (frame_is_periodic (frame_of ft) = false →
     visual_atom _cva frame_is_periodic (State h d c)
     = (Ret a, State h d c))
  ∧ (frame_is_periodic (frame_of ft) = true →
     d !! "_visual_atom" = Some VNone →
     ∀ va, _cva h d = Ret va →
     ∃ l o s',
       visual_atom _cva frame_is_periodic (State h d c) = (Ret l, s')
       ∧ calls s' = c ++ ["compute_visual_atom"]
       ∧ self s' !! "_visual_atom" = Some (VRef o)
       ∧ heap s' !! o = Some (Table va)
       ∧ heap s' !! l = Some (Table (update_table adf va))
       ∧ index (update_table adf va) = index adf
       ∧ (length h ≤ l)%nat ∧ l ≠ a
       ∧ self s' !! "_atom" = Some (VRef a)
       ∧ heap s' !! a = Some (Table adf)).
Proof.
  intros Hf Hh Ha Hha. split.
  - intros Hp. by eapply visual_atom_free.
  - intros Hp Hv va Hc. eexists _, _, _.
    split; [by eapply visual_atom_periodic|]. simpl.
    rewrite lookup_insert_eq, heap_new0, heap_new1.
    rewrite lookup_insert_ne by done. rewrite (heap_old _ _ _ _ Hha).
    repeat split; try done.
    + apply update_table_index.
    + lia.
    + apply lookup_lt_Some in Hha. lia.
Qed.

End VisualAtom.

Lemma visual_atom_overlay_sample :
  visual_atom Sample._cva Sample.frame_is_periodic Sample.free_universe
    = (Ret 1%nat, Sample.free_universe)
  ∧ ∃ l s',
      visual_atom Sample._cva Sample.frame_is_periodic Sample.cell_universe
        = (Ret l, s')
      ∧ (column "x" <$> (frame_of <$> heap s' !! l))
        = Some [(0, Obj "0.1"); (1, Obj "0.05")]
      ∧ (column "x" <$> (frame_of <$> heap s' !! 1%nat))
        = Some [(0, Obj "0.1"); (1, Obj "10.05")].
Proof.
  split.
  - apply (visual_atom_overlay Sample._cva Sample.frame_is_periodic
             (heap Sample.free_universe) (self Sample.free_universe) []
             0%nat (Table Sample.free_frame) 1%nat Sample.free_atom);
      vm_compute; reflexivity.
  - destruct (visual_atom_overlay Sample._cva Sample.frame_is_periodic
                (heap Sample.cell_universe) (self Sample.cell_universe) []
                0%nat (Table Sample.cell_frame) 1%nat Sample.cell_atom)
      as [_ Hper]; try (vm_compute; reflexivity).
    destruct (Hper eq_refl eq_refl Sample.cell_unit_atom eq_refl)
      as (l & o & s' & Hrun & _ & _ & _ & Hl & _ & _ & _ & _ & Hatom).
    exists l, s'. split; [exact Hrun|].
    rewrite Hl. split; [vm_compute; reflexivity|].
    rewrite Hatom. vm_compute. reflexivity.
Defined.

(** * Further properties of the universe *)

(** ** What the methods assign *)

Ltac assigns_step :=
  match goal with
  | |- keeps _ (_ ≫= _) => apply keeps_bind; [|intros]
  | |- keeps _ (if ?b then _ else _) => destruct b
  | |- keeps _ (match ?v with _ => _ end) => destruct v
  | |- keeps _ (setattr _ _) => apply keeps_setattr; assumption
  | |- keeps _ _ => solve [eauto with keeps]
  end.

Ltac assigns_all :=
  unfold table_of, modify, copy, retype, set_typed, slot, _is;
  repeat assigns_step.

Section Assigned.

Variable Args : Type.
Variables _cua _cpa _cva _cm _cmcom : reader DataFrame.
Variable _ctb : Args → reader DataFrame.
Variables _cbc _cpbc : reader (gmap Z Z).
Variable minimal_frame : DataFrame → outcome DataFrame.
Variable frame_is_periodic : DataFrame → bool.
Variable concat_columns : DataFrame → DataFrame → DataFrame.
Variable _reconstruct_field :
  object → option (list (list cell)) → outcome object.
Variable classify : list classifier → DataFrame → outcome DataFrame.

(** X1.  The methods and accessors of the universe assign the attributes
    listed in [assigned] and no other: an attribute outside the list, set or
    not, is after any of them what it was before, whether the method returns
    or raises. *)
Theorem methods_assign_only x :
  x ∉ assigned →
  keeps x (compute_frame minimal_frame)
  ∧ keeps x (compute_unit_atom _cua)
  ∧ keeps x (compute_projected_atom _cpa)
  ∧ keeps x (compute_visual_atom _cva)
  ∧ (∀ com, keeps x (compute_molecule _cva _cm _cmcom concat_columns com))
  ∧ keeps x (unit_atom _cua)
  ∧ keeps x (visual_atom _cva frame_is_periodic)
  ∧ keeps x (projected_atom _cpa)
  ∧ keeps x (molecule _cva _cm _cmcom concat_columns)
  ∧ keeps x (two frame_is_periodic)
  ∧ keeps x truncate_projected_atom
  ∧ (∀ args flag,
       keeps x (compute_two_body Args _ctb frame_is_periodic args flag)
       ∧ keeps x (compute_two_free Args _ctb frame_is_periodic args flag)
       ∧ keeps x (compute_two_periodic Args _ctb frame_is_periodic args flag))
  ∧ keeps x (compute_bond_count _cbc)
  ∧ keeps x (compute_projected_bond_count _cpa _cpbc)
  ∧ (∀ field frame fv,
       keeps x (append_field _reconstruct_field field frame fv))
  ∧ (∀ cs,
       keeps x (classify_molecules _cva _cm _cmcom concat_columns classify cs))
  ∧ (∀ v, keeps x (append_dataframe v) ∧ keeps x (slice_by_molecules v)
          ∧ keeps x (compute_spherical_gtf_order v)
          ∧ keeps x (compute_cartesian_gtf_order v))
  ∧ keeps x __len__
  ∧ keeps x spherical_gtf_order
  ∧ keeps x cartesian_gtf_order.
Proof.
  intros Hx. unfold assigned in Hx. rewrite !not_elem_of_cons in Hx.
  destruct Hx as (Hfr & Hua & Hpa & Hva & Hmo & Htf & Htp & Hfi & Htr & _).
  assert (Hcva : keeps x (compute_visual_atom _cva)).
  { unfold compute_visual_atom. assigns_all. }
  assert (Hcpa : keeps x (compute_projected_atom _cpa)).
  { unfold compute_projected_atom. assigns_all. }
  assert (Hcm : ∀ com,
            keeps x (compute_molecule _cva _cm _cmcom concat_columns com)).
  { intros com. unfold compute_molecule. assigns_all. }
  assert (Hproj : keeps x (projected_atom _cpa)).
  { unfold projected_atom. assigns_all. }
  assert (Hmol : keeps x (molecule _cva _cm _cmcom concat_columns)).
  { unfold molecule. assigns_all. }
  assert (Hper : keeps x (is_periodic frame_is_periodic)).
  { unfold is_periodic. assigns_all. }
  assert (Htrunc : keeps x truncate_projected_atom).
  { unfold truncate_projected_atom. assigns_all. }
  assert (Hctb : ∀ args flag,
            keeps x (compute_two_body Args _ctb frame_is_periodic args flag)).
  { intros args flag. unfold compute_two_body. assigns_all. }
  repeat split; try assumption; intros;
    unfold compute_frame, unit_atom, compute_unit_atom, visual_atom, two,
      compute_two_free, compute_two_periodic, compute_bond_count,
      compute_projected_bond_count, append_field, field_values_of,
      classify_molecules, append_dataframe, slice_by_molecules,
      compute_spherical_gtf_order, compute_cartesian_gtf_order, __len__,
      spherical_gtf_order, cartesian_gtf_order;
    assigns_all.
Qed.

End Assigned.

Lemma methods_assign_only_sample :
  keeps "_two"
    (compute_two_body unit Sample._ctb Sample.frame_is_periodic tt true)
  ∧ keeps "_periodic_two"
      (compute_two_body unit Sample._ctb Sample.frame_is_periodic tt true).
Proof.
  split.
  - apply (methods_assign_only unit Sample._cua Sample._cpa Sample._cva
             Sample._cm Sample._cmcom Sample._ctb
             (spec_bond_count Sample.frame_is_periodic)
             spec_projected_bond_count Sample.minimal_frame
             Sample.frame_is_periodic Sample.concat_columns
             Sample._reconstruct_field Sample.classify "_two").
    apply (bool_decide_unpack _). vm_compute. exact I.
  - apply (methods_assign_only unit Sample._cua Sample._cpa Sample._cva
             Sample._cm Sample._cmcom Sample._ctb
             (spec_bond_count Sample.frame_is_periodic)
             spec_projected_bond_count Sample.minimal_frame
             Sample.frame_is_periodic Sample.concat_columns
             Sample._reconstruct_field Sample.classify "_periodic_two").
    apply (bool_decide_unpack _). vm_compute. exact I.
Defined.

(** ** Computing, failing and computing again *)

Section Computes.

Variable Args : Type.
Variables _cua _cpa _cva _cm _cmcom : reader DataFrame.
Variable _ctb : Args → reader DataFrame.
Variable minimal_frame : DataFrame → outcome DataFrame.
Variable frame_is_periodic : DataFrame → bool.
Variable concat_columns : DataFrame → DataFrame → DataFrame.

(** X2.  When the collaborator of a compute method raises, the method
    raises the same exception and the universe is as it was: the attribute
    still holds what it held, a table cached before is still cached, and no
    table has changed.  Only the record of calls has grown. *)
Theorem failed_compute_keeps_cache h d c e :
  (_cua h d = Raise e →
     compute_unit_atom _cua (State h d c)
     = (Raise e, State h d (c ++ ["compute_unit_atom"])))
  ∧ (_cpa h d = Raise e →
     compute_projected_atom _cpa (State h d c)
     = (Raise e, State h d (c ++ ["compute_projected_atom"])))
  ∧ (_cva h d = Raise e →
     compute_visual_atom _cva (State h d c)
     = (Raise e, State h d (c ++ ["compute_visual_atom"])))
  ∧ (_cm h d = Raise e → ∀ com,
     compute_molecule _cva _cm _cmcom concat_columns com (State h d c)
     = (Raise e, State h d (c ++ ["compute_molecule"])))
  ∧ (∀ args flag f ft,
     d !! "_frame" = Some (VRef f) → h !! f = Some ft →
     _ctb args h d = Raise e →
     compute_two_body Args _ctb frame_is_periodic args flag (State h d c)
     = (Raise e, State h d (c ++ ["compute_two_body"]))).
Proof.
  repeat split.
  - intros H. unfold compute_unit_atom. mdone.
  - intros H. unfold compute_projected_atom. mdone.
  - intros H. unfold compute_visual_atom. mdone.
  - intros H [|]; unfold compute_molecule; mdone.
  - intros args flag f ft Hf Hh H. unfold compute_two_body, is_periodic.
    mrun. destruct (frame_is_periodic (frame_of ft)); mdone.
Qed.

(** X3.  An explicit compute does not look at what is cached: whatever the
    attribute holds, [compute_projected_atom] and [compute_molecule] put the
    collaborator's new table in its place, the accessor then returns that
    table without computing, and the table cached before, like every other
    table, is not written to. *)
Theorem compute_replaces_cache h d c p m :
  _cpa h d = Ret p → _cm h d = Ret m →
  (∃ s', compute_projected_atom _cpa (State h d c) = (Ret tt, s')
         ∧ tables_kept (State h d c) s'
         ∧ heap s' !! length h = Some (Table p)
         ∧ ∀ f, projected_atom f s' = (Ret (VRef (length h)), s'))
  ∧ (∃ s', compute_molecule _cva _cm _cmcom concat_columns false
             (State h d c) = (Ret tt, s')
           ∧ tables_kept (State h d c) s'
           ∧ heap s' !! length h = Some (Table m)
           ∧ ∀ f1 f2 f3 g,
               molecule f1 f2 f3 g s' = (Ret (VRef (length h)), s')).
Proof.
  intros Hp Hm. split.
  - eexists. split; [unfold compute_projected_atom; mdone|].
    split; [intros l o; apply heap_old|]. simpl.
    split; [by rewrite heap_new0|].
    intros f. apply projected_atom_present, lookup_insert_eq.
  - eexists. split; [unfold compute_molecule; mdone|].
    split; [intros l o; apply heap_old|]. simpl.
    split; [by rewrite heap_new0|].
    intros f1 f2 f3 g. apply molecule_present, lookup_insert_eq.
Qed.


(** X5.  What [compute_two_body] stores is what [two] returns: on a free
    universe, and on a periodic one when the truncation is switched off,
    [two] gives the reference of the table the collaborator returned and
    changes nothing. *)
Theorem two_returns_computed_pairs args flag h d c f ft r :
  d !! "_frame" = Some (VRef f) → h !! f = Some ft →
  _ctb args h d = Ret r →
  (frame_is_periodic (frame_of ft) = true → flag = false) →
  ∃ s' l,
    compute_two_body Args _ctb frame_is_periodic args flag (State h d c)
      = (Ret tt, s')
    ∧ two frame_is_periodic s' = (Ret l, s')
    ∧ heap s' !! l = Some (Table r).
Proof.
  intros Hf Hh Hr Hflag.
  destruct (frame_is_periodic (frame_of ft)) eqn:Hper.
  - rewrite (Hflag eq_refl). eexists _, _.
    split; [unfold compute_two_body, is_periodic; mdone|].
    split; [unfold two, is_periodic; mdone|]. simpl. by rewrite heap_new0.
  - eexists _, _.
    split; [unfold compute_two_body, is_periodic; mdone|].
    split; [unfold two, is_periodic; mdone|]. simpl. by rewrite heap_new0.
Qed.

(** X6.  A universe without a Frame table has length 0, and asking for it
    raises nothing and changes nothing; once [compute_frame] has derived
    the frame from the atoms, the length is the number of rows of that
    frame. *)
Theorem len_counts_frames h d c :
  (d !! "_frame" = None → __len__ (State h d c) = (Ret 0%nat, State h d c))
  ∧ (∀ a adf fr,
       d !! "_atom" = Some (VRef a) → h !! a = Some (Table adf) →
       minimal_frame adf = Ret fr →
       ∃ s', compute_frame minimal_frame (State h d c) = (Ret tt, s')
             ∧ __len__ s' = (Ret (length fr), s')).
Proof.
  split.
  - intros Hf. unfold __len__. mdone.
  - intros a adf fr Ha Hh Hfr. eexists.
    split; [unfold compute_frame; mdone|]. unfold __len__. mdone.
Qed.

End Computes.

Lemma failed_compute_keeps_cache_sample :
  compute_projected_atom (λ _ _, Raise ValueError) Sample.bonded_cell
  = (Raise ValueError,
     State (heap Sample.bonded_cell) (self Sample.bonded_cell)
           ["compute_projected_atom"]).
Proof.
  apply (failed_compute_keeps_cache unit
           (λ _ _, Raise ValueError) (λ _ _, Raise ValueError)
           (λ _ _, Raise ValueError) (λ _ _, Raise ValueError)
           Sample._cmcom (λ _ _ _, Raise ValueError)
           Sample.frame_is_periodic Sample.concat_columns
           (heap Sample.bonded_cell) (self Sample.bonded_cell) []
           ValueError).
  reflexivity.
Defined.

Lemma compute_replaces_cache_sample :
  ∃ s', compute_projected_atom Sample._cpa Sample.bonded_cell = (Ret tt, s')
        ∧ heap s' !! 2%nat = Some (Table Sample.cell_projected_atom)
        ∧ projected_atom Sample._cpa s' = (Ret (VRef 4), s').
Proof.
  destruct (compute_replaces_cache Sample._cpa Sample._cva Sample._cm
              Sample._cmcom Sample.concat_columns
              (heap Sample.bonded_cell) (self Sample.bonded_cell) []
              Sample.cell_projected_atom Sample.free_molecule
              eq_refl eq_refl)
    as [(s' & Hrun & Hkept & _ & Hacc) _].
  exists s'. split; [exact Hrun|]. split; [|apply Hacc].
  apply Hkept. reflexivity.
Defined.


Lemma two_returns_computed_pairs_sample :
  ∃ s' l,
    compute_two_body unit Sample._ctb Sample.frame_is_periodic tt true
      Sample.free_universe = (Ret tt, s')
    ∧ two Sample.frame_is_periodic s' = (Ret l, s')
    ∧ heap s' !! l = Some (Table Sample.free_pairs).
Proof.
  apply (two_returns_computed_pairs unit Sample._ctb
           Sample.frame_is_periodic tt true
           (heap Sample.free_universe) (self Sample.free_universe) []
           0%nat (Table Sample.free_frame) Sample.free_pairs);
    try (vm_compute; reflexivity).
  vm_compute. discriminate.
Defined.

Lemma len_counts_frames_sample :
  __len__ (State [Table Sample.free_atom] {[ "_atom" := VRef 0 ]} [])
  = (Ret 0%nat, State [Table Sample.free_atom] {[ "_atom" := VRef 0 ]} [])
  ∧ ∃ s', compute_frame Sample.minimal_frame
            (State [Table Sample.free_atom] {[ "_atom" := VRef 0 ]} [])
          = (Ret tt, s')
          ∧ __len__ s' = (Ret 1%nat, s').
Proof.
  destruct (len_counts_frames Sample.minimal_frame
              [Table Sample.free_atom] {[ "_atom" := VRef 0 ]} [])
    as [Hnone Hsome].
  split; [apply Hnone; vm_compute; reflexivity|].
  apply (Hsome 0%nat Sample.free_atom
           [(0, {[ "atom_count" := Int 3; "periodic" := Bool false ]})]);
    vm_compute; reflexivity.
Defined.

(** ** More on the truncation *)

Lemma select_isin_idempotent pa (df : DataFrame) :
  select_isin pa (select_isin pa df) = select_isin pa df.
Proof.
  unfold select_isin. induction df as [|ir df IH]; [done|].
  destruct (decide (ir.1 ∈ pa)) as [Hin|Hin].
  - rewrite !filter_cons_True by done. by rewrite IH.
  - by rewrite filter_cons_False.
Qed.

Lemma select_isin_nil (df : DataFrame) : select_isin [] df = [].
Proof.
  unfold select_isin. induction df as [|ir df IH]; [done|].
  rewrite filter_cons_False; [done|]. apply not_elem_of_nil.
Qed.

(** X7.  Truncating twice is truncating once: the second
    [truncate_projected_atom] returns as the first did and leaves a
    ProjectedAtom table with the same rows. *)
Theorem truncate_projected_atom_idempotent h d c t pairs p pdf :
  d !! "periodic_two" = Some (VRef t) → h !! t = Some (Table pairs) →
  d !! "_projected_atom" = Some (VRef p) → h !! p = Some (Table pdf) →
  integer_ids pairs →
  ∃ s1 s2 l1 l2 kept,
    truncate_projected_atom (State h d c) = (Ret tt, s1)
    ∧ truncate_projected_atom s1 = (Ret tt, s2)
    ∧ self s1 !! "_projected_atom" = Some (VRef l1)
    ∧ heap s1 !! l1 = Some (Table kept)
    ∧ self s2 !! "_projected_atom" = Some (VRef l2)
    ∧ heap s2 !! l2 = Some (Table kept).
Proof.
  intros Ht Hht Hp Hhp Hint.
  destruct (astype_int64_column "prjd_atom0" pairs) as (pa0 & H0 & _).
  { eapply Forall_impl; [exact Hint|]. by intros ? [? _]. }
  destruct (astype_int64_column "prjd_atom1" pairs) as (pa1 & H1 & _).
  { eapply Forall_impl; [exact Hint|]. by intros ? [_ ?]. }
  eexists _, _, _, _, _.
  split; [by eapply truncate_projected_atom_run|].
  split.
  { eapply truncate_projected_atom_run; try eassumption.
    - by rewrite lookup_insert_ne.
    - by apply heap_old.
    - apply lookup_insert_eq.
    - by rewrite heap_new0. }
  simpl. rewrite !lookup_insert_eq, !heap_new0.
  rewrite select_isin_idempotent. repeat split.
Qed.

Lemma truncate_projected_atom_idempotent_sample :
  ∃ s1 s2,
    truncate_projected_atom
      (State [Table Sample.cell_pairs; Table Sample.cell_projected_atom]
             {[ "periodic_two" := VRef 0; "_projected_atom" := VRef 1 ]} [])
    = (Ret tt, s1)
    ∧ truncate_projected_atom s1 = (Ret tt, s2)
    ∧ table_at (heap s2) (self s2) "_projected_atom"
      = table_at (heap s1) (self s1) "_projected_atom".
Proof.
  destruct (truncate_projected_atom_idempotent
              [Table Sample.cell_pairs; Table Sample.cell_projected_atom]
              {[ "periodic_two" := VRef 0; "_projected_atom" := VRef 1 ]} []
              0%nat Sample.cell_pairs 1%nat Sample.cell_projected_atom)
    as (s1 & s2 & l1 & l2 & kept & Hr1 & Hr2 & Hs1 & Hh1 & Hs2 & Hh2);
    try (vm_compute; reflexivity).
  { repeat constructor; vm_compute; eauto. }
  exists s1, s2. split; [exact Hr1|]. split; [exact Hr2|].
  unfold table_at. by rewrite Hs1, Hs2, Hh1, Hh2.
Defined.



(** X9.  The truncation keeps the rows some pair refers to, so with a pair
    table that has no rows it keeps none: the ProjectedAtom table becomes
    empty, whatever it held. *)
Theorem truncate_projected_atom_no_pairs h d c t p pdf :
  d !! "periodic_two" = Some (VRef t) → h !! t = Some (Table []) →
  d !! "_projected_atom" = Some (VRef p) → h !! p = Some (Table pdf) →
  ∃ s' l,
    truncate_projected_atom (State h d c) = (Ret tt, s')
    ∧ self s' !! "_projected_atom" = Some (VRef l)
    ∧ heap s' !! l = Some (Table [])
    ∧ heap s' !! p = Some (Table pdf).
Proof.
  intros Ht Hht Hp Hhp. eexists _, _.
  split; [eapply truncate_projected_atom_run; try eassumption; reflexivity|].
  simpl. rewrite lookup_insert_eq, heap_new0, select_isin_nil.
  repeat split. by apply heap_old.
Qed.

Lemma truncate_projected_atom_no_pairs_sample :
  ∃ s' l,
    truncate_projected_atom
      (State [Table []; Table Sample.cell_projected_atom]
             {[ "periodic_two" := VRef 0; "_projected_atom" := VRef 1 ]} [])
    = (Ret tt, s')
    ∧ self s' !! "_projected_atom" = Some (VRef l)
    ∧ heap s' !! l = Some (Table [])
    ∧ heap s' !! 1%nat = Some (Table Sample.cell_projected_atom).
Proof.
  apply (truncate_projected_atom_no_pairs
           [Table []; Table Sample.cell_projected_atom]
           {[ "periodic_two" := VRef 0; "_projected_atom" := VRef 1 ]} []
           0%nat 1%nat Sample.cell_projected_atom);
    vm_compute; reflexivity.
Defined.

(** ** More on the field store *)

Lemma concat_ignore_index_rows (a b : DataFrame) :
  (concat_ignore_index a b).*2 = a.*2 ++ b.*2.
Proof.
  unfold concat_ignore_index. rewrite fmap_imap, <- fmap_app.
  apply imap_const.
Qed.

Section MoreFields.

Variable _reconstruct_field :
  object → option (list (list cell)) → outcome object.

Lemma append_field_first field fv h d c fo r :
  d !! "_field" = Some VNone →
  h !! field = Some fo →
  _reconstruct_field fo fv = Ret r →
  append_field _reconstruct_field field NoFrame fv (State h d c) =
    (Ret tt,
     State (h ++ [r])
           (<["_traits_need_update" := VBool true]>
              (<["_field" := VRef (length h)]> d))
           c).
Proof.
  intros Hf Hfo Hr. unfold append_field. mdone.
Qed.

(** X10.  The first field appended to a universe whose store holds [None]
    becomes the store as it is: its value arrays and its dimension rows
    with the labels they came with, which are not reset as they are by
    later appends.  The universe is marked as needing its traits updated,
    and the field handed in is not written to. *)
Theorem append_field_first_is_kept field fv h d c fo nv ndf :
  d !! "_field" = Some VNone →
  h !! field = Some fo →
  _reconstruct_field fo fv = Ret (FieldTable nv ndf) →
  ∃ s' l,
    append_field _reconstruct_field field NoFrame fv (State h d c)
      = (Ret tt, s')
    ∧ self s' !! "_field" = Some (VRef l)
    ∧ heap s' !! l = Some (FieldTable nv ndf)
    ∧ self s' !! "_traits_need_update" = Some (VBool true)
    ∧ heap s' !! field = Some fo.
Proof.
  intros Hf Hfo Hr. eexists _, _.
  split; [by eapply append_field_first|]. simpl.
  rewrite lookup_insert_eq, lookup_insert_ne by done.
  rewrite lookup_insert_eq, heap_new0. repeat split. by apply heap_old.
Qed.

(** X11.  Two appends to an empty store: after fields of [m] and [n]
    entries have been appended one after the other, the store holds
    [m + n] entries, the value arrays of the first followed by those of the
    second, and the dimension rows of the first followed by those of the
    second, labelled 0 to [m + n - 1]. *)
Theorem append_field_twice f1 f2 fv1 fv2 h d c fo1 fo2 v1 d1 v2 d2 :
  d !! "_field" = Some VNone →
  h !! f1 = Some fo1 → h !! f2 = Some fo2 →
  _reconstruct_field fo1 fv1 = Ret (FieldTable v1 d1) →
  _reconstruct_field fo2 fv2 = Ret (FieldTable v2 d2) →
  ∃ s1 s2 l rows,
    append_field _reconstruct_field f1 NoFrame fv1 (State h d c)
      = (Ret tt, s1)
    ∧ append_field _reconstruct_field f2 NoFrame fv2 s1 = (Ret tt, s2)
    ∧ self s2 !! "_field" = Some (VRef l)
    ∧ heap s2 !! l = Some (FieldTable (v1 ++ v2) rows)
    ∧ length rows = (length d1 + length d2)%nat
    ∧ index rows = Z.of_nat <$> seq 0 (length d1 + length d2)
    ∧ rows.*2 = d1.*2 ++ d2.*2.
Proof.
  intros Hf H1 H2 Hr1 Hr2. eexists _, _, _, _.
  split; [by eapply append_field_first|].
  split.
  { eapply append_field_to_store.
    - rewrite lookup_insert_ne by done. apply lookup_insert_eq.
    - by rewrite heap_new0.
    - by apply heap_old.
    - exact Hr2. }
  simpl. rewrite lookup_insert_ne by done. rewrite lookup_insert_eq.
  rewrite length_app, Nat.add_1_r, <- app_assoc. simpl.
  rewrite heap_new2. simpl.
  split; [done|]. split; [done|].
  split; [apply concat_ignore_index_length|].
  split; [apply concat_ignore_index_labels|].
  apply concat_ignore_index_rows.
Qed.

(** X12.  An append that fails after the frame was checked has already
    written: when the field cannot be reconstructed, [append_field] raises
    the exception of the reconstruction with the store, and every attribute
    of the universe, as they were, but the frame is in the dimension rows
    of the field that was handed in. *)
Theorem append_field_failure_keeps_store field z fv h d c f ft fo e :
  d !! "_frame" = Some (VRef f) → h !! f = Some ft →
  z ∈ index (frame_of ft) →
  h !! field = Some fo →
  _reconstruct_field (framed (IntFrame z) fo) fv = Raise e →
  ∃ s',
    append_field _reconstruct_field field (IntFrame z) fv (State h d c)
      = (Raise e, s')
    ∧ self s' = d
    ∧ calls s' = c
    ∧ heap s' !! field = Some (framed (IntFrame z) fo)
    ∧ ∀ l o, l ≠ field → h !! l = Some o → heap s' !! l = Some o.
Proof.
  intros Hf Hh Hz Hfo Hr. eexists. split.
  { erewrite append_field_good_frame by eassumption.
    unfold append_field, framed in *. mdone. }
  simpl. split; [done|]. split; [done|]. split.
  - apply list_lookup_insert_eq. by eapply lookup_lt_Some.
  - intros l o Hne Hl. by rewrite list_lookup_insert_ne.
Qed.

End MoreFields.

Lemma append_field_first_is_kept_sample :
  ∃ s' l,
    append_field Sample._reconstruct_field 3 NoFrame None
      (State (heap Sample.field_universe)
             (<["_field" := VNone]> (self Sample.field_universe)) [])
    = (Ret tt, s')
    ∧ self s' !! "_field" = Some (VRef l)
    ∧ heap s' !! l
      = Some (FieldTable [Sample.density 2; Sample.density 3]
                [(0, Sample.grid 1); (1, Sample.grid 2)]).
Proof.
  destruct (append_field_first_is_kept Sample._reconstruct_field
              3%nat None (heap Sample.field_universe)
              (<["_field" := VNone]> (self Sample.field_universe)) []
              (FieldTable [Sample.density 2; Sample.density 3]
                 [(0, Sample.grid 1); (1, Sample.grid 2)])
              [Sample.density 2; Sample.density 3]
              [(0, Sample.grid 1); (1, Sample.grid 2)])
    as (s' & l & Hrun & Hl & Hh & _); try (vm_compute; reflexivity).
  by exists s', l.
Defined.

Lemma append_field_twice_sample :
  ∃ s1 s2 l rows,
    append_field Sample._reconstruct_field 3 NoFrame None
      (State (heap Sample.field_universe)
             (<["_field" := VNone]> (self Sample.field_universe)) [])
    = (Ret tt, s1)
    ∧ append_field Sample._reconstruct_field 2 NoFrame None s1 = (Ret tt, s2)
    ∧ self s2 !! "_field" = Some (VRef l)
    ∧ heap s2 !! l
      = Some (FieldTable
                [Sample.density 2; Sample.density 3; Sample.density 1] rows)
    ∧ index rows = [0; 1; 2].
Proof.
  destruct (append_field_twice Sample._reconstruct_field
              3%nat 2%nat None None (heap Sample.field_universe)
              (<["_field" := VNone]> (self Sample.field_universe)) []
              (FieldTable [Sample.density 2; Sample.density 3]
                 [(0, Sample.grid 1); (1, Sample.grid 2)])
              (FieldTable [Sample.density 1] [(0, Sample.grid 0)])
              [Sample.density 2; Sample.density 3]
              [(0, Sample.grid 1); (1, Sample.grid 2)]
              [Sample.density 1] [(0, Sample.grid 0)])
    as (s1 & s2 & l & rows & Hr1 & Hr2 & Hl & Hh & _ & Hidx & _);
    try (vm_compute; reflexivity).
  exists s1, s2, l, rows. repeat split; try assumption.
Defined.

Lemma append_field_failure_keeps_store_sample :
  ∃ s',
    append_field (λ _ _, Raise TypeError) 3 (IntFrame 0) None
      Sample.field_universe = (Raise TypeError, s')
    ∧ self s' = self Sample.field_universe
    ∧ (column "frame" <$> (frame_of <$> heap s' !! 3%nat))
      = Some [(0, Int 0); (1, Int 0)].
Proof.
  destruct (append_field_failure_keeps_store (λ _ _, Raise TypeError)
              3%nat 0 None (heap Sample.field_universe)
              (self Sample.field_universe) []
              0%nat (Table Sample.free_frame)
              (FieldTable [Sample.density 2; Sample.density 3]
                 [(0, Sample.grid 1); (1, Sample.grid 2)])
              TypeError)
    as (s' & Hrun & Hself & _ & Hfield & _);
    try (vm_compute; reflexivity).
  { vm_compute. left. }
  exists s'. split; [exact Hrun|]. split; [exact Hself|].
  rewrite Hfield. vm_compute. reflexivity.
Defined.

(** ** More on the bond counts *)

Lemma counted_lookup c d bc (df : DataFrame) k :
  counted c d bc df !! k
  = (λ ir, (ir.1, <[c := Int (default d (bc !! ir.1))]> ir.2)) <$> df !! k.
Proof. unfold counted. apply list_lookup_fmap. Qed.

(** X13.  [compute_bond_count] touches one column.  Whatever counts the
    collaborator returns, the Atom table keeps its rows, their order and
    their labels, and in every row every column except [bond_count] keeps
    its value; no other table and no attribute of the universe changes. *)
Theorem compute_bond_count_touches_one_column
    (_cbc : reader (gmap Z Z)) h d c a adf bc :
  d !! "_atom" = Some (VRef a) → h !! a = Some (Table adf) →
  _cbc h d = Ret bc →
  ∃ s' adf',
    compute_bond_count _cbc (State h d c) = (Ret tt, s')
    ∧ self s' = d
    ∧ heap s' !! a = Some (Table adf')
    ∧ length adf' = length adf
    ∧ index adf' = index adf
    ∧ (∀ k i r, adf !! k = Some (i, r) →
         ∃ r', adf' !! k = Some (i, r')
               ∧ ∀ col, col ≠ "bond_count" → r' !! col = r !! col)
    ∧ ∀ l o, l ≠ a → h !! l = Some o → heap s' !! l = Some o.
Proof.
  intros Ha Hh Hbc. eexists _, _.
  split; [by eapply compute_bond_count_run|]. simpl.
  split; [done|].
  split; [apply list_lookup_insert_eq; by eapply lookup_lt_Some|].
  split; [unfold counted; apply length_fmap|].
  split; [apply counted_index|]. split.
  - intros k i r Hk. eexists. rewrite counted_lookup, Hk. simpl.
    split; [done|]. intros col Hcol. by rewrite lookup_insert_ne.
  - intros l o Hne Hl. by rewrite list_lookup_insert_ne.
Qed.

Lemma compute_bond_count_touches_one_column_sample :
  ∃ s' adf',
    compute_bond_count (spec_bond_count Sample.frame_is_periodic)
      Sample.bonded_cell = (Ret tt, s')
    ∧ heap s' !! 1%nat = Some (Table adf')
    ∧ column "x" adf' = column "x" Sample.cell_atom
    ∧ heap s' !! 2%nat = Some (Table Sample.cell_projected_atom).
Proof.
  destruct (compute_bond_count_touches_one_column
              (spec_bond_count Sample.frame_is_periodic)
              (heap Sample.bonded_cell) (self Sample.bonded_cell) []
              1%nat Sample.cell_atom (count_ids [0; 1]))
    as (s' & adf' & Hrun & _ & Hh & _ & _ & _ & Hother);
    try (vm_compute; reflexivity).
  exists s', adf'. split; [exact Hrun|]. split; [exact Hh|]. split.
  - vm_compute in Hrun. injection Hrun as <-.
    vm_compute in Hh. injection Hh as <-. vm_compute. reflexivity.
  - apply Hother; [lia|reflexivity].
Defined.

Section Aliases.

Variable _cva : reader DataFrame.
Variable _cbc : reader (gmap Z Z).
Variable frame_is_periodic : DataFrame → bool.

(** X14.  Views and copies.  On a universe that is not periodic the table
    [visual_atom] returned is the Atom table, so the bond counts computed
    afterwards are in it; on a periodic universe the table returned is a
    copy, and the bond counts computed afterwards are in the Atom table but
    not in the copy. *)
Theorem visual_atom_alias_sees_bond_count h d c f ft a adf :
  d !! "_frame" = Some (VRef f) → h !! f = Some ft →
  d !! "_atom" = Some (VRef a) → h !! a = Some (Table adf) →
  (frame_is_periodic (frame_of ft) = false →
     ∀ bc, _cbc h d = Ret bc →
     ∃ l s1 s2,
       visual_atom _cva frame_is_periodic (State h d c) = (Ret l, s1)
       ∧ compute_bond_count _cbc s1 = (Ret tt, s2)
       ∧ heap s2 !! l = Some (Table (counted "bond_count" 0 bc adf)))
  ∧ (frame_is_periodic (frame_of ft) = true →
     d !! "_visual_atom" = Some VNone →
     ∀ va bc, _cva h d = Ret va →
     _cbc (h ++ [Table va; Table (update_table adf va)])
          (<["_visual_atom" := VRef (length h)]> d) = Ret bc →
     ∃ l s1 s2,
       visual_atom _cva frame_is_periodic (State h d c) = (Ret l, s1)
       ∧ compute_bond_count _cbc s1 = (Ret tt, s2)
       ∧ heap s2 !! l = Some (Table (update_table adf va))
       ∧ heap s2 !! a = Some (Table (counted "bond_count" 0 bc adf))).
Proof.
  intros Hf Hh Ha Hha. split.
  - intros Hper bc Hbc. eexists _, _, _.
    split; [by eapply visual_atom_free|].
    split; [by eapply compute_bond_count_run|]. simpl.
    apply list_lookup_insert_eq. by eapply lookup_lt_Some.
  - intros Hper Hv va bc Hva Hbc. eexists _, _, _.
    split; [by eapply visual_atom_periodic|].
    split.
    { eapply compute_bond_count_run; [|by apply heap_old|exact Hbc].
      by rewrite lookup_insert_ne. }
    simpl. pose proof (lookup_lt_Some _ _ _ Hha) as Hlt. split.
    + rewrite list_lookup_insert_ne by lia. by rewrite heap_new1.
    + rewrite list_lookup_insert_eq; [done|]. rewrite length_app. lia.
Qed.

End Aliases.

Lemma visual_atom_alias_sees_bond_count_sample :
  (∃ l s1 s2,
      visual_atom Sample._cva Sample.frame_is_periodic
        (State [Table Sample.free_frame; Table Sample.free_atom;
                Table Sample.free_pairs]
               {[ "_frame" := VRef 0; "_atom" := VRef 1;
                  "_two_free" := VRef 2 ]} []) = (Ret l, s1)
      ∧ compute_bond_count (spec_bond_count Sample.frame_is_periodic) s1
        = (Ret tt, s2)
      ∧ (column "bond_count" <$> (frame_of <$> heap s2 !! l))
        = Some [(0, Int 2); (1, Int 1); (2, Int 1)])
  ∧ (∃ l s1 s2,
      visual_atom Sample._cva Sample.frame_is_periodic
        (State (heap Sample.bonded_cell)
               (<["_visual_atom" := VNone]> (self Sample.bonded_cell)) [])
      = (Ret l, s1)
      ∧ compute_bond_count (spec_bond_count Sample.frame_is_periodic) s1
        = (Ret tt, s2)
      ∧ (column "bond_count" <$> (frame_of <$> heap s2 !! l))
        = Some [(0, NaN); (1, NaN)]
      ∧ (column "bond_count" <$> (frame_of <$> heap s2 !! 1%nat))
        = Some [(0, Int 1); (1, Int 1)]).
Proof.
  split.
  - destruct (visual_atom_alias_sees_bond_count Sample._cva
                (spec_bond_count Sample.frame_is_periodic)
                Sample.frame_is_periodic
                [Table Sample.free_frame; Table Sample.free_atom;
                 Table Sample.free_pairs]
                {[ "_frame" := VRef 0; "_atom" := VRef 1;
                   "_two_free" := VRef 2 ]} []
                0%nat (Table Sample.free_frame) 1%nat Sample.free_atom)
      as [Hfree _]; try (vm_compute; reflexivity).
    destruct (Hfree eq_refl (count_ids [0; 0; 1; 2]) eq_refl)
      as (l & s1 & s2 & Hv & Hc & Hl).
    exists l, s1, s2. split; [exact Hv|]. split; [exact Hc|].
    rewrite Hl. vm_compute. reflexivity.
  - destruct (visual_atom_alias_sees_bond_count Sample._cva
                (spec_bond_count Sample.frame_is_periodic)
                Sample.frame_is_periodic
                (heap Sample.bonded_cell)
                (<["_visual_atom" := VNone]> (self Sample.bonded_cell)) []
                0%nat (Table Sample.cell_frame) 1%nat Sample.cell_atom)
      as [_ Hper]; try (vm_compute; reflexivity).
    destruct (Hper eq_refl eq_refl Sample.cell_unit_atom
                (count_ids [0; 1]) eq_refl eq_refl)
      as (l & s1 & s2 & Hv & Hc & Hl & Ha).
    exists l, s1, s2. split; [exact Hv|]. split; [exact Hc|].
    rewrite Hl, Ha. split; vm_compute; reflexivity.
Defined.

(** ** Accessors at the edges *)

Section Edges.

Variables _cua _cpa _cva _cm _cmcom : reader DataFrame.
Variable _cpbc : reader (gmap Z Z).
Variable frame_is_periodic : DataFrame → bool.
Variable concat_columns : DataFrame → DataFrame → DataFrame.
Variable classify : list classifier → DataFrame → outcome DataFrame.

(** X15.  [compute_projected_bond_count] on a universe whose projected
    atoms have not been computed: the counts are asked for first, of the
    universe as it is, then the projected atoms are computed, once, though
    the accessor is gone through three times, and the counts are written
    into the new table, -1 where there is none. *)
Theorem compute_projected_bond_count_computes_atoms h d c pbc p :
  d !! "_projected_atom" = Some VNone →
  _cpbc h d = Ret pbc → _cpa h d = Ret p →
  compute_projected_bond_count _cpa _cpbc (State h d c) =
    (Ret tt,
     State (h ++ [Table (counted "bond_count" (-1) pbc p)])
           (<["_projected_atom" := VRef (length h)]> d)
           (c ++ ["compute_projected_bond_count"; "compute_projected_atom"])).
Proof.
  intros Hp Hbc Hcpa.
  unfold compute_projected_bond_count, projected_atom,
    compute_projected_atom.
  mrun. rewrite fill_int_values_aligned. mrun.
  rewrite setitem_values_aligned. reflexivity.
Qed.

(** X16.  [projected_atom] and [visual_atom] ask whether the attribute is
    [None], not whether it is there.  On a universe where the attribute was
    never set they raise [AttributeError] and compute nothing; so does
    [compute_projected_bond_count], after it has asked for the counts. *)
Theorem is_none_accessors_need_attribute h d c :
  (d !! "_projected_atom" = None →
     projected_atom _cpa (State h d c) = (Raise AttributeError, State h d c)
     ∧ ∀ pbc, _cpbc h d = Ret pbc →
         compute_projected_bond_count _cpa _cpbc (State h d c)
         = (Raise AttributeError,
            State h d (c ++ ["compute_projected_bond_count"])))
  ∧ (d !! "_visual_atom" = None →
     ∀ f ft, d !! "_frame" = Some (VRef f) → h !! f = Some ft →
     frame_is_periodic (frame_of ft) = true →
     visual_atom _cva frame_is_periodic (State h d c)
     = (Raise AttributeError, State h d c)).
Proof.
  split.
  - intros Hp. split.
    + unfold projected_atom. mdone.
    + intros pbc Hbc. unfold compute_projected_bond_count, projected_atom.
      mdone.
  - intros Hv f ft Hf Hh Hper. unfold visual_atom, is_periodic. mdone.
Qed.

(** X17.  [molecule] asks whether the attribute is there, not whether it
    holds a table.  On a universe whose [_molecule] holds [None] it returns
    [None] and computes nothing, and [classify_molecules] raises
    [AttributeError] and leaves everything as it was. *)
Theorem hasattr_accessors_accept_none h d c cs :
  d !! "_molecule" = Some VNone →
  molecule _cva _cm _cmcom concat_columns (State h d c)
  = (Ret VNone, State h d c)
  ∧ classify_molecules _cva _cm _cmcom concat_columns classify cs
      (State h d c)
    = (Raise AttributeError, State h d c).
Proof.
  intros Hm. split.
  - by apply molecule_present.
  - unfold classify_molecules.
    unfold mbind at 1, M_bind. by rewrite (molecule_present _ _ _ _ _ _ _ _ Hm).
Qed.

(** X18.  [compute_molecule] with centres of mass.  The molecule table is
    stored first, the visual atoms are then computed anew whether cached or
    not, and the table stored in the end is the molecule table with the
    columns of the centres of mass beside it.  When computing the visual
    atoms raises, the exception goes to the caller and the molecule table
    without centres of mass stays cached. *)
Theorem compute_molecule_com h d c m :
  _cm h d = Ret m →
  let h1 := h ++ [Table m] in
  let d1 := <["_molecule" := VRef (length h)]> d in
  (∀ e, _cva h1 d1 = Raise e →
     compute_molecule _cva _cm _cmcom concat_columns true (State h d c)
     = (Raise e,
        State h1 d1 (c ++ ["compute_molecule"; "compute_visual_atom"])))
  ∧ (∀ va com, _cva h1 d1 = Ret va →
     _cmcom (h ++ [Table m; Table va])
            (<["_visual_atom" := VRef (S (length h))]> d1) = Ret com →
     compute_molecule _cva _cm _cmcom concat_columns true (State h d c)
     = (Ret tt,
        State (h ++ [Table m; Table va; Table (concat_columns m com)])
              (<["_molecule" := VRef (S (S (length h)))]>
                 (<["_visual_atom" := VRef (S (length h))]> d1))
              (c ++ ["compute_molecule"; "compute_visual_atom"]))).
Proof.
  intros Hm h1 d1. subst h1 d1. split.
  - intros e He. unfold compute_molecule, compute_visual_atom. mdone.
  - intros va com Hva Hcom.
    unfold compute_molecule, compute_visual_atom. mdone.
Qed.

End Edges.

(** X19.  The orderings of the basis functions are not computed on demand:
    where the attribute is not set, [spherical_gtf_order] raises and leaves
    the universe alone, and [compute_spherical_gtf_order], which stops at a
    name the module does not have, does not set it, so that the accessor
    raises after it as before; where the attribute is set, the accessor
    returns what it holds.  The same holds for the cartesian ordering. *)
Theorem gtf_order_is_not_lazy h d c v :
  (d !! "_spherical_gtf_order" = None →
     spherical_gtf_order (State h d c)
     = (Raise (Failure "Compute spherical_gtf_order first!"), State h d c)
     ∧ ∃ e s', compute_spherical_gtf_order v (State h d c) = (Raise e, s')
               ∧ self s' = d ∧ heap s' = h
               ∧ spherical_gtf_order s'
                 = (Raise (Failure "Compute spherical_gtf_order first!"), s'))
  ∧ (d !! "_cartesian_gtf_order" = None →
     cartesian_gtf_order (State h d c)
     = (Raise (Failure "Compute cartesian_gtf_order first!"), State h d c)
     ∧ ∃ e s', compute_cartesian_gtf_order v (State h d c) = (Raise e, s')
               ∧ self s' = d ∧ heap s' = h
               ∧ cartesian_gtf_order s'
                 = (Raise (Failure "Compute cartesian_gtf_order first!"), s'))
  ∧ (∀ w, d !! "_spherical_gtf_order" = Some w →
          spherical_gtf_order (State h d c) = (Ret w, State h d c))
  ∧ (∀ w, d !! "_cartesian_gtf_order" = Some w →
          cartesian_gtf_order (State h d c) = (Ret w, State h d c)).
Proof.
  repeat split.
  - unfold spherical_gtf_order. mdone.
  - eexists _, _. split; [reflexivity|]. simpl. repeat split.
    unfold spherical_gtf_order. mdone.
  - unfold cartesian_gtf_order. mdone.
  - eexists _, _. split; [reflexivity|]. simpl. repeat split.
    unfold cartesian_gtf_order. mdone.
  - intros w Hw. unfold spherical_gtf_order. mdone.
  - intros w Hw. unfold cartesian_gtf_order. mdone.
Qed.

Lemma compute_projected_bond_count_computes_atoms_sample :
  ∃ s',
    compute_projected_bond_count Sample._cpa spec_projected_bond_count
      (State [Table Sample.cell_frame; Table Sample.cell_atom;
              Table Sample.cell_pairs]
             {[ "_frame" := VRef 0; "_atom" := VRef 1;
                "_projected_atom" := VNone; "_two_periodic" := VRef 2 ]} [])
    = (Ret tt, s')
    ∧ calls s'
      = ["compute_projected_bond_count"; "compute_projected_atom"]
    ∧ (column "bond_count" <$> (frame_of <$> heap s' !! 3%nat))
      = Some [(0, Int (-1)); (1, Int 1); (2, Int (-1));
              (3, Int (-1)); (4, Int 1); (5, Int (-1))].
Proof.
  eexists. split.
  - apply (compute_projected_bond_count_computes_atoms
             Sample._cpa spec_projected_bond_count
             [Table Sample.cell_frame; Table Sample.cell_atom;
              Table Sample.cell_pairs]
             {[ "_frame" := VRef 0; "_atom" := VRef 1;
                "_projected_atom" := VNone; "_two_periodic" := VRef 2 ]} []
             (count_ids [1; 4]) Sample.cell_projected_atom);
      vm_compute; reflexivity.
  - split; vm_compute; reflexivity.
Defined.

Lemma is_none_accessors_need_attribute_sample :
  projected_atom Sample._cpa
    (State [Table Sample.cell_frame] {[ "_frame" := VRef 0 ]} [])
  = (Raise AttributeError,
     State [Table Sample.cell_frame] {[ "_frame" := VRef 0 ]} [])
  ∧ visual_atom Sample._cva Sample.frame_is_periodic
      (State [Table Sample.cell_frame] {[ "_frame" := VRef 0 ]} [])
    = (Raise AttributeError,
       State [Table Sample.cell_frame] {[ "_frame" := VRef 0 ]} []).
Proof.
  destruct (is_none_accessors_need_attribute Sample._cpa Sample._cva
              spec_projected_bond_count Sample.frame_is_periodic
              [Table Sample.cell_frame] {[ "_frame" := VRef 0 ]} [])
    as [Hp Hv].
  split.
  - apply Hp. vm_compute. reflexivity.
  - apply (Hv eq_refl 0%nat (Table Sample.cell_frame));
      vm_compute; reflexivity.
Defined.

Lemma hasattr_accessors_accept_none_sample :
  molecule Sample._cva Sample._cm Sample._cmcom Sample.concat_columns
    (State [] {[ "_molecule" := VNone ]} [])
  = (Ret VNone, State [] {[ "_molecule" := VNone ]} [])
  ∧ classify_molecules Sample._cva Sample._cm Sample._cmcom
      Sample.concat_columns Sample.classify [("Na", "solute", true)]
      (State [] {[ "_molecule" := VNone ]} [])
    = (Raise AttributeError, State [] {[ "_molecule" := VNone ]} []).
Proof.
  apply (hasattr_accessors_accept_none Sample._cva Sample._cm Sample._cmcom
           Sample.concat_columns Sample.classify
           [] {[ "_molecule" := VNone ]} [] [("Na", "solute", true)]).
  vm_compute. reflexivity.
Defined.

Lemma compute_molecule_com_sample :
  (∃ s',
      compute_molecule Sample._cva Sample._cm Sample._cmcom
        Sample.concat_columns true Sample.free_universe = (Ret tt, s')
      ∧ calls s' = ["compute_molecule"; "compute_visual_atom"]
      ∧ (column "cx" <$> table_at (heap s') (self s') "_molecule")
        = Some [(0, Obj "0.0")])
  ∧ ∃ s',
      compute_molecule (λ _ _, Raise ValueError) Sample._cm Sample._cmcom
        Sample.concat_columns true Sample.free_universe
      = (Raise ValueError, s')
      ∧ table_at (heap s') (self s') "_molecule" = Some Sample.free_molecule.
Proof.
  split.
  - destruct (compute_molecule_com Sample._cva Sample._cm Sample._cmcom
                Sample.concat_columns
                (heap Sample.free_universe) (self Sample.free_universe) []
                Sample.free_molecule eq_refl) as [_ Hok].
    eexists. split.
    + apply (Hok [] [(0, {[ "cx" := Obj "0.0"; "cy" := Obj "0.0";
                            "cz" := Obj "0.0" ]})]);
        vm_compute; reflexivity.
    + split; vm_compute; reflexivity.
  - destruct (compute_molecule_com (λ _ _, Raise ValueError) Sample._cm
                Sample._cmcom Sample.concat_columns
                (heap Sample.free_universe) (self Sample.free_universe) []
                Sample.free_molecule eq_refl) as [Hfail _].
    eexists. split; [apply (Hfail ValueError eq_refl)|].
    vm_compute. reflexivity.
Defined.

Lemma gtf_order_is_not_lazy_sample :
  spherical_gtf_order Sample.free_universe
  = (Raise (Failure "Compute spherical_gtf_order first!"),
     Sample.free_universe)
  ∧ cartesian_gtf_order
      (State [] {[ "_cartesian_gtf_order" := VNone ]} [])
    = (Ret VNone, State [] {[ "_cartesian_gtf_order" := VNone ]} []).
Proof.
  split.
  - apply (gtf_order_is_not_lazy (heap Sample.free_universe)
             (self Sample.free_universe) [] VNone).
    vm_compute. reflexivity.
  - apply (gtf_order_is_not_lazy
             [] {[ "_cartesian_gtf_order" := VNone ]} [] VNone).
    vm_compute. reflexivity.
Defined.

(** * The ADF NMR output editor *)

Lemma concat_all_index (dfs : list DataFrame) :
  index (concat_all dfs) = Z.of_nat <$> seq 0 (length (concat dfs)).
Proof.
  unfold index, concat_all. rewrite fmap_imap.
  apply (imap_seq_0 (concat dfs) Z.of_nat).
Qed.

Lemma concat_all_rows (dfs : list DataFrame) :
  (concat_all dfs).*2 = (concat dfs).*2.
Proof. unfold concat_all. rewrite fmap_imap. apply imap_const. Qed.

Lemma concat_singletons (rs : list row) :
  concat ((λ r, [(0, r)]) <$> rs) = (λ r, (0, r)) <$> rs.
Proof. induction rs as [|r rs IH]; [done|]. cbn. f_equal. exact IH. Qed.

Lemma frames_of_singletons (rs : list row) :
  frames_of (concat_all ((λ r, [(0, r)]) <$> rs))
  = (λ r, cell_of r "frame") <$> rs.
Proof.
  unfold frames_of, concat_all. rewrite concat_singletons.
  apply list_eq. intros i.
  rewrite !list_lookup_fmap, list_lookup_imap, list_lookup_fmap.
  by destruct (rs !! i).
Qed.

Section Shielding.

Variable shielding_at : nat → outcome row.

Lemma next_ndx_in_block ncalc ndx b start :
  in_block ncalc b start → b = ndx ∨ b = S ndx →
  next_ndx ncalc ndx start = Some b.
Proof.
  intros (c0 & c1 & H0 & H1 & Hlt) [-> | ->]; unfold next_ndx.
  - rewrite H0. simpl. rewrite bool_decide_eq_true_2 by lia.
    rewrite H1. simpl. by rewrite bool_decide_eq_true_2 by lia.
  - destruct (lookup_lt_is_Some_2 ncalc ndx) as [c Hc].
    { apply lookup_lt_Some in H0. lia. }
    rewrite Hc. simpl. case_bool_decide; [|done].
    rewrite H0. simpl. by rewrite bool_decide_eq_false_2 by lia.
Qed.

Lemma shielding_rows_track ncalc (row_of : nat → row) found :
  ∀ blocks ndx,
    Forall2 (in_block ncalc) blocks found →
    stepwise ndx blocks →
    (∀ start, start ∈ found → shielding_at start = Ret (row_of start)) →
    shielding_rows shielding_at ncalc ndx found
    = Ret (zip_with (λ start b, <["frame" := Int (Z.of_nat b)]> (row_of start))
             found blocks).
Proof.
  induction found as [|start found IH]; intros blocks ndx Hin Hstep Hrow.
  - by destruct blocks.
  - destruct blocks as [|b blocks]; [by apply Forall2_nil_cons_inv in Hin|].
    apply Forall2_cons in Hin as [Hb Hin]. destruct Hstep as [Hb' Hstep].
    simpl. rewrite (next_ndx_in_block _ _ _ _ Hb Hb').
    rewrite Hrow by left.
    rewrite (IH blocks b Hin Hstep); [done|].
    intros s Hs. apply Hrow. by right.
Qed.

(** X20.  The frame of a shielding tensor is the calculation its nucleus
    lies in, provided the nuclei come calculation by calculation: the first
    nucleus in the first or second calculation, each further one in the
    calculation of the one before or in the next.  Then
    [parse_nmr_shielding] assigns a table with one row per nucleus, labelled
    by position, whose frames are the numbers of these calculations. *)
Theorem shielding_frames_track_calculations
    found ncalc nlines blocks (row_of : nat → row) :
  found ≠ [] →
  Forall2 (in_block (ncalc ++ [nlines])) blocks found →
  stepwise 0 blocks →
  (∀ start, start ∈ found → shielding_at start = Ret (row_of start)) →
  ∃ table,
    parse_nmr_shielding shielding_at found ncalc nlines = Ret (Some table)
    ∧ frames_of table = (λ b, Int (Z.of_nat b)) <$> blocks
    ∧ index table = Z.of_nat <$> seq 0 (length found).
Proof.
  intros Hne Hin Hstep Hrow. unfold parse_nmr_shielding.
  rewrite (shielding_rows_track _ row_of found blocks 0 Hin Hstep Hrow).
  destruct found as [|start found]; [done|]. eexists. split; [done|].
  pose proof (Forall2_length _ _ _ Hin) as Hlen. split.
  - rewrite frames_of_singletons. clear Hne Hin Hstep Hrow.
    revert blocks Hlen. generalize (start :: found) as l.
    induction l as [|s l IH]; intros [|b blocks] Hlen; try done.
    simpl. rewrite cell_of_insert. f_equal. apply IH. simpl in Hlen. lia.
  - rewrite concat_all_index, concat_singletons, length_fmap.
    rewrite length_zip_with. do 2 f_equal. lia.
Qed.

Lemma shielding_rows_stepwise ncalc found :
  ∀ ndx rs,
    shielding_rows shielding_at ncalc ndx found = Ret rs →
    ∃ blocks,
      length blocks = length found
      ∧ stepwise ndx blocks
      ∧ (λ r, cell_of r "frame") <$> rs = (λ b, Int (Z.of_nat b)) <$> blocks.
Proof.
  induction found as [|start found IH]; intros ndx rs Hrun; simpl in Hrun.
  - injection Hrun as <-. by exists [].
  - destruct (next_ndx ncalc ndx start) as [ndx'|] eqn:Hnext; [|done].
    destruct (shielding_at start) as [r|]; [|done].
    destruct (shielding_rows shielding_at ncalc ndx' found) as [rs'|] eqn:Hrest;
      [|done].
    injection Hrun as <-. destruct (IH ndx' rs' Hrest) as (bs & Hlen & Hst & Hfr).
    exists (ndx' :: bs). split; [simpl; lia|]. split.
    + split; [|done]. unfold next_ndx in Hnext.
      destruct (ncalc !! ndx); simpl in Hnext; [|done].
      case_bool_decide; [|by injection Hnext as <-; right].
      destruct (ncalc !! S ndx); simpl in Hnext; [|done].
      injection Hnext as <-. case_bool_decide; [by left|by right].
    + cbn. rewrite cell_of_insert. f_equal. exact Hfr.
Qed.

(** X21.  Whenever [parse_nmr_shielding] assigns a table, the table has one
    row per nucleus found, labelled by position, and its frames are whole
    numbers that start at 0 or 1 and from one row to the next stay or go up
    by one.  When no nucleus is found the method returns and assigns
    nothing. *)
Theorem shielding_frames_are_stepwise found ncalc nlines :
  parse_nmr_shielding shielding_at [] ncalc nlines = Ret None
  ∧ ∀ table,
      parse_nmr_shielding shielding_at found ncalc nlines = Ret (Some table) →
      length table = length found
      ∧ index table = Z.of_nat <$> seq 0 (length found)
      ∧ ∃ blocks,
          stepwise 0 blocks
          ∧ frames_of table = (λ b, Int (Z.of_nat b)) <$> blocks.
Proof.
  split; [done|]. intros table Hrun. unfold parse_nmr_shielding in Hrun.
  destruct found as [|start found]; [done|].
  destruct (shielding_rows shielding_at (ncalc ++ [nlines]) 0 (start :: found))
    as [rs|] eqn:Hrows; [|done].
  injection Hrun as <-.
  destruct (shielding_rows_stepwise _ _ _ _ Hrows) as (bs & Hlen & Hst & Hfr).
  assert (Hrs : length rs = length (start :: found)).
  { rewrite <- Hlen. rewrite <- (length_fmap (λ r, cell_of r "frame") rs).
    by rewrite Hfr, length_fmap. }
  split; [|split].
  - unfold concat_all. by rewrite length_imap, concat_singletons, length_fmap.
  - by rewrite concat_all_index, concat_singletons, length_fmap, Hrs.
  - exists bs. split; [done|]. by rewrite frames_of_singletons.
Qed.

(** X22.  An output with nuclei but no line that announces coordinates:
    a single nucleus gets frame 1, not 0, and with two or more nuclei the
    method raises [IndexError] at the second. *)
Theorem shielding_without_coordinates start nlines r :
  (start ≤ nlines)%nat →
  shielding_at start = Ret r →
  parse_nmr_shielding shielding_at [start] [] nlines
  = Ret (Some [(0, <["frame" := Int 1]> r)])
  ∧ ∀ start' rest,
      parse_nmr_shielding shielding_at (start :: start' :: rest) [] nlines
      = Raise IndexError.
Proof.
  intros Hlt Hr. split.
  - unfold parse_nmr_shielding. simpl. unfold next_ndx. simpl.
    rewrite bool_decide_eq_false_2 by lia. simpl. by rewrite Hr.
  - intros start' rest. unfold parse_nmr_shielding. simpl.
    unfold next_ndx at 1. simpl.
    rewrite bool_decide_eq_false_2 by lia. simpl. by rewrite Hr.
Qed.

End Shielding.

Lemma shielding_frames_track_calculations_sample :
  ∃ table,
    parse_nmr_shielding (λ start, Ret {[ "line" := Int (Z.of_nat start) ]})
      [20; 30; 60]%nat [10; 50]%nat 90%nat = Ret (Some table)
    ∧ frames_of table = [Int 0; Int 0; Int 1]
    ∧ index table = [0; 1; 2].
Proof.
  apply (shielding_frames_track_calculations
           (λ start, Ret {[ "line" := Int (Z.of_nat start) ]})
           [20; 30; 60]%nat [10; 50]%nat 90%nat [0; 0; 1]%nat
           (λ start, {[ "line" := Int (Z.of_nat start) ]})).
  - discriminate.
  - repeat constructor; eexists _, _; (split; [reflexivity|]);
      (split; [reflexivity|]); lia.
  - simpl. tauto.
  - reflexivity.
Defined.

Lemma shielding_frames_are_stepwise_sample :
  ∃ table,
    parse_nmr_shielding (λ start, Ret {[ "line" := Int (Z.of_nat start) ]})
      [5; 30; 60]%nat [10; 50]%nat 90%nat = Ret (Some table)
    ∧ length table = 3%nat
    ∧ ∃ blocks, stepwise 0 blocks
                ∧ frames_of table = (λ b, Int (Z.of_nat b)) <$> blocks.
Proof.
  eexists. split; [vm_compute; reflexivity|].
  destruct (shielding_frames_are_stepwise
              (λ start, Ret {[ "line" := Int (Z.of_nat start) ]})
              [5; 30; 60]%nat [10; 50]%nat 90%nat) as [_ H].
  destruct (H _ eq_refl) as (Hlen & _ & Hblocks).
  split; [exact Hlen|exact Hblocks].
Defined.

Lemma shielding_without_coordinates_sample :
  parse_nmr_shielding (λ start, Ret {[ "line" := Int (Z.of_nat start) ]})
    [20]%nat [] 90%nat
  = Ret (Some [(0, <["frame" := Int 1]> {[ "line" := Int 20 ]})])
  ∧ parse_nmr_shielding (λ start, Ret {[ "line" := Int (Z.of_nat start) ]})
      [20; 30]%nat [] 90%nat
    = Raise IndexError.
Proof.
  destruct (shielding_without_coordinates
              (λ start, Ret {[ "line" := Int (Z.of_nat start) ]})
              20%nat 90%nat {[ "line" := Int 20 ]}) as [H1 H2];
    [lia|reflexivity|].
  split; [exact H1|apply H2].
Defined.

(** ** Reading the coordinates *)

Lemma strip_paren_idempotent x : strip_paren (strip_paren x) = strip_paren x.
Proof.
  induction x as [|a x IH]; [done|]. simpl.
  destruct (Ascii.eqb a "(") eqn:Ha; [done|]. simpl. by rewrite Ha, IH.
Qed.

Lemma unparenthesised_refl (l : list string) :
  Forall2 (λ a b, b = a ∨ b = strip_paren a) l l.
Proof. induction l; constructor; auto. Qed.

Lemma unparenthesised_strip (l : list string) :
  Forall2 (λ a b, b = a ∨ b = strip_paren a) l (strip_paren <$> l).
Proof. induction l; constructor; auto. Qed.

Section Coordinates.

Variable is_blank : string → bool.
Variable atom_table : list string → outcome DataFrame.

Lemma scan_spec rest :
  ∀ stop,
    match scan is_blank rest stop with
    | Ret s =>
        ∃ k, s = (stop + k)%nat
             ∧ (∃ line, rest !! k = Some line ∧ is_blank line = true)
             ∧ ∀ j line, (j < k)%nat → rest !! j = Some line
                         → is_blank line = false
    | Raise e => e = IndexError ∧ Forall (λ line, is_blank line = false) rest
    end.
Proof.
  induction rest as [|line rest IH]; intros stop; simpl.
  - by split.
  - destruct (is_blank line) eqn:Hb.
    + exists 0%nat. split; [lia|]. split; [by exists line|]. intros; lia.
    + specialize (IH (S stop)).
      destruct (scan is_blank rest (S stop)) as [s|e].
      * destruct IH as (k & -> & Hk & Hbefore). exists (S k).
        split; [lia|]. split; [done|].
        intros [|j] l Hj Hl; simpl in Hl; [by injection Hl as <-|].
        eapply Hbefore; [|done]. lia.
      * destruct IH as [-> Hall]. split; [done|]. by constructor.
Qed.

(** X23.  The scan for the end of a block of coordinates finds the first
    blank line at or after the start of the block: it stops at a line that
    is blank, every line from the start up to it is not, and it stops inside
    the file.  When no line from the start on is blank, or the start is
    past the last line, it raises [IndexError]. *)
Theorem scan_finds_first_blank lines start :
  match scan is_blank (drop start lines) start with
  | Ret stop =>
      (start ≤ stop < length lines)%nat
      ∧ (∃ line, lines !! stop = Some line ∧ is_blank line = true)
      ∧ ∀ i line, (start ≤ i < stop)%nat → lines !! i = Some line
                  → is_blank line = false
  | Raise e =>
      e = IndexError
      ∧ ∀ i line, (start ≤ i)%nat → lines !! i = Some line
                  → is_blank line = false
  end.
Proof.
  pose proof (scan_spec (drop start lines) start) as H.
  destruct (scan is_blank (drop start lines) start) as [stop|e].
  - destruct H as (k & -> & (line & Hk & Hb) & Hbefore).
    rewrite lookup_drop in Hk. split; [|split].
    + apply lookup_lt_Some in Hk. lia.
    + by exists line.
    + intros i l Hi Hl. apply (Hbefore (i - start)%nat); [lia|].
      rewrite lookup_drop. by replace (start + (i - start))%nat with i by lia.
  - destruct H as [-> Hall]. split; [done|]. intros i l Hi Hl.
    rewrite Forall_lookup in Hall. apply (Hall (i - start)%nat).
    rewrite lookup_drop. by replace (start + (i - start))%nat with i by lia.
Qed.

Lemma parse_atom_blocks_lines found :
  ∀ idx lines,
    Forall2 (λ a b, b = a ∨ b = strip_paren a) lines
      (parse_atom_blocks is_blank atom_table idx found lines).2.
Proof.
  induction found as [|val found IH]; intros idx lines; simpl.
  - apply unparenthesised_refl.
  - pose proof (scan_spec (drop (val + 3) lines) (val + 3)) as Hscan.
    destruct (scan is_blank (drop (val + 3) lines) (val + 3)) as [stop|e];
      simpl; [|apply unparenthesised_refl].
    destruct Hscan as (k & -> & _ & _).
    replace (val + 3 + k - (val + 3))%nat with k by lia.
    set (lines' := take (val + 3) lines
                   ++ (strip_paren <$> take k (drop (val + 3) lines))
                   ++ drop (val + 3 + k) lines).
    assert (Hstep : Forall2 (λ a b, b = a ∨ b = strip_paren a) lines lines').
    { rewrite <- (take_drop (val + 3) lines) at 1.
      rewrite <- (take_drop k (drop (val + 3) lines)) at 1.
      rewrite drop_drop. subst lines'.
      apply Forall2_app; [apply unparenthesised_refl|].
      apply Forall2_app; [apply unparenthesised_strip|].
      apply unparenthesised_refl. }
    destruct (atom_table _) as [df|e]; simpl; [|exact Hstep].
    specialize (IH (S idx) lines').
    destruct (parse_atom_blocks is_blank atom_table (S idx) found lines')
      as [[dfs|e] lines'']; simpl in *.
    + eapply Forall2_trans; [|exact Hstep|exact IH].
      intros x y z [-> | ->] [-> | ->]; auto.
      right. apply strip_paren_idempotent.
    + eapply Forall2_trans; [|exact Hstep|exact IH].
      intros x y z [-> | ->] [-> | ->]; auto.
      right. apply strip_paren_idempotent.
Qed.

(** X24.  Whatever [parse_atom] does, return or raise, the editor has as
    many lines afterwards as before, and each line is what it was or what
    it was with every opening parenthesis taken out. *)
Theorem parse_atom_rewrites_parentheses_only found lines :
  length (parse_atom is_blank atom_table found lines).2 = length lines
  ∧ Forall2 (λ a b, b = a ∨ b = strip_paren a) lines
      (parse_atom is_blank atom_table found lines).2.
Proof.
  assert (H : Forall2 (λ a b, b = a ∨ b = strip_paren a) lines
                (parse_atom is_blank atom_table found lines).2).
  { pose proof (parse_atom_blocks_lines found 0 lines) as H.
    unfold parse_atom.
    by destruct (parse_atom_blocks is_blank atom_table 0 found lines)
      as [[[|df dfs]|e] lines']. }
  split; [|exact H]. symmetry. by eapply Forall2_length.
Qed.

Lemma parse_atom_blocks_frames found :
  ∀ idx lines dfs lines',
    parse_atom_blocks is_blank atom_table idx found lines = (Ret dfs, lines') →
    length dfs = length found
    ∧ ∀ k df ir, dfs !! k = Some df → ir ∈ df →
        ir.2 !! "frame" = Some (Int (Z.of_nat (idx + k))).
Proof.
  induction found as [|val found IH]; intros idx lines dfs lines' Hrun;
    simpl in Hrun.
  - injection Hrun as <- <-. split; [done|]. intros k df ir Hk.
    by rewrite lookup_nil in Hk.
  - destruct (scan is_blank (drop (val + 3) lines) (val + 3)) as [stop|e];
      [|done].
    destruct (atom_table _) as [df0|e]; [|done].
    destruct (parse_atom_blocks is_blank atom_table (S idx) found _)
      as [[dfs'|e] l''] eqn:Hrest; [|done].
    injection Hrun as <- <-.
    destruct (IH _ _ _ _ Hrest) as [Hlen Hfr]. split; [simpl; lia|].
    intros [|k] df ir Hk Hin; simpl in Hk.
    + injection Hk as <-. unfold setitem_scalar in Hin.
      apply list_elem_of_fmap in Hin as (ir0 & -> & _). simpl.
      rewrite lookup_insert_eq. do 3 f_equal. lia.
    + rewrite (Hfr k df ir Hk Hin). do 3 f_equal. lia.
Qed.

(** X25.  The atom table [parse_atom] assigns is made block by block: there
    is one table per announcement of coordinates, in the order of the
    announcements, every row of the k-th has frame k, and the rows of all
    of them, one table after the other, are labelled by their position.
    With no announcement there is nothing to put together and the method
    raises [ValueError]. *)
Theorem parse_atom_frames_number_blocks found lines :
  parse_atom is_blank atom_table [] lines = (Raise ValueError, lines)
  ∧ ∀ table lines',
      parse_atom is_blank atom_table found lines = (Ret table, lines') →
      ∃ dfs,
        table = concat_all dfs
        ∧ length dfs = length found
        ∧ (∀ k df ir, dfs !! k = Some df → ir ∈ df →
             ir.2 !! "frame" = Some (Int (Z.of_nat k)))
        ∧ index table = Z.of_nat <$> seq 0 (length table).
Proof.
  split; [done|]. intros table lines' Hrun. unfold parse_atom in Hrun.
  destruct (parse_atom_blocks is_blank atom_table 0 found lines)
    as [[dfs|e] l'] eqn:Hblocks; [|done].
  destruct (parse_atom_blocks_frames _ _ _ _ _ Hblocks) as [Hlen Hfr].
  destruct dfs as [|df dfs]; [done|]. injection Hrun as <- <-.
  exists (df :: dfs). split; [done|]. split; [done|]. split; [exact Hfr|].
  rewrite concat_all_index. unfold concat_all. by rewrite length_imap.
Qed.

End Coordinates.

Lemma parse_atom_frames_number_blocks_sample :
  ∃ table lines',
    parse_atom (λ line, bool_decide (line = ""))
      (λ block, Ret ((λ line, (0, {[ "symbol" := Obj line ]})) <$> block))
      [0; 6]%nat
      ["NUCLEAR COORDINATES"; ""; ""; "H(1):"; "O(2):"; "";
       "NUCLEAR COORDINATES"; ""; ""; "C(1):"; ""]
    = (Ret table, lines')
    ∧ frames_of table = [Int 0; Int 0; Int 1]
    ∧ index table = [0; 1; 2]
    ∧ lines' = ["NUCLEAR COORDINATES"; ""; ""; "H1):"; "O2):"; "";
                "NUCLEAR COORDINATES"; ""; ""; "C1):"; ""].
Proof.
  eexists _, _. split; [vm_compute; reflexivity|].
  destruct (parse_atom_frames_number_blocks (λ line, bool_decide (line = ""))
              (λ block, Ret ((λ line, (0, {[ "symbol" := Obj line ]}))
                               <$> block))
              [0; 6]%nat
              ["NUCLEAR COORDINATES"; ""; ""; "H(1):"; "O(2):"; "";
               "NUCLEAR COORDINATES"; ""; ""; "C(1):"; ""]) as [_ H].
  destruct (H _ _ eq_refl) as (dfs & _ & _ & _ & Hidx).
  split; [vm_compute; reflexivity|]. split; [|reflexivity].
  clear Hidx. vm_compute. reflexivity.
Defined.
